(** * therapy_aid_tool.model_inference: per-class best prediction and
      bounding-box geometry

    A shallow embedding of [src/therapy_aid_tool/model_inference.py].

    Numbers.  Python floats are idealised as exact rationals ([Q]); the
    comparison [==] of Python is [Qeq] (written [==] below), so two
    representations of one number compare equal, as [0.0] and [-0.0] do.
    The reducer also uses the sentinel [float("-inf")], so its rows hold
    [pyfloat] values: a rational or minus infinity.  NaN and plus infinity
    are not modelled.

    The theorems on the arithmetic of boxes are stated on the corners that
    a box stores and on the areas that [rectangular_area] returns.  They
    conclude orders, signs and equalities between results of one and the
    same computation, which hold for rounded floats as for exact numbers.

    Errors.  Each function that can raise returns [result]; the constructor
    of [error] is the Python exception raised. *)

From Stdlib Require Import List ZArith QArith Qround Qminmax Bool FinFun Lia Lqa.
From Stdlib Require Import Permutation Sorted.
Import ListNotations.

(** ** Exceptions and the error monad *)

Inductive error : Type :=
| KeyError
| ValueError
| IndexError
| TypeError
| ZeroDivisionError.

Inductive result (A : Type) : Type :=
| Ok (a : A)
| Raise (e : error).

Arguments Ok {A} a.
Arguments Raise {A} e.

Definition bind {A B : Type} (r : result A) (k : A -> result B) : result B :=
  match r with
  | Ok a => k a
  | Raise e => Raise e
  end.

Notation "x <- c ;; k" := (bind c (fun x => k))
  (at level 61, c at next level, right associativity).

(** A [for] loop whose body may raise: the state is threaded through the
    items in order and the first exception stops the loop. *)
Fixpoint for_each {A S : Type} (body : S -> A -> result S) (items : list A)
    (s : S) : result S :=
  match items with
  | [] => Ok s
  | a :: rest => s' <- body s a ;; for_each body rest s'
  end.

(** [range(n)]: empty when [n <= 0]. *)
Definition range (n : Z) : list Z := map Z.of_nat (seq 0 (Z.to_nat n)).

(** ** Floats of the reducer *)

Inductive pyfloat : Type :=
| NegInf
| Fin (q : Q).

(** [a < b] on floats. *)
Definition flt (a b : pyfloat) : bool :=
  match a, b with
  | NegInf, NegInf => false
  | NegInf, Fin _ => true
  | Fin _, NegInf => false
  | Fin p, Fin q => negb (Qle_bool q p)
  end.

(** [a == b] on floats. *)
Definition feq (a b : pyfloat) : bool :=
  match a, b with
  | NegInf, NegInf => true
  | Fin p, Fin q => Qeq_bool p q
  | _, _ => false
  end.

Definition fle (a b : pyfloat) : bool := negb (flt b a).

Definition is_finite (a : pyfloat) : bool :=
  match a with
  | NegInf => false
  | Fin _ => true
  end.

(** One row of [results.xywhn[0].tolist()]. *)
Definition row : Type := list pyfloat.

(** ** The dictionary [preds_dict]

    An insertion-ordered dictionary with [int] keys: an association list
    with distinct keys, in insertion order.  Its values start as lists of
    rows, and the second loop replaces each by a row or by [None]. *)

Inductive dval : Type :=
| VList (rows : list row)
| VRow (r : row)
| VNone.

Definition pydict : Type := list (Z * dval).

Fixpoint dict_get (d : pydict) (k : Z) : option dval :=
  match d with
  | [] => None
  | (k', v) :: rest => if Z.eqb k' k then Some v else dict_get rest k
  end.

(** [d[k] = v]: an existing key keeps its position. *)
Fixpoint dict_set (d : pydict) (k : Z) (v : dval) : pydict :=
  match d with
  | [] => [(k, v)]
  | (k', v') :: rest =>
      if Z.eqb k' k then (k', v) :: rest else (k', v') :: dict_set rest k v
  end.

(** A float used as a key finds the [int] key it is equal to: a float
    hashes like the integer it equals, and no integer equals a float with a
    fractional part or an infinity. *)
Definition int_of_float (c : pyfloat) : option Z :=
  match c with
  | NegInf => None
  | Fin q => if Qeq_bool q (inject_Z (Qfloor q)) then Some (Qfloor q) else None
  end.

(** [d[c]] for a float [c]; a missing key raises [KeyError]. *)
Definition dict_getitem (d : pydict) (c : pyfloat) : result (Z * dval) :=
  match int_of_float c with
  | None => Raise KeyError
  | Some k =>
      match dict_get d k with
      | None => Raise KeyError
      | Some v => Ok (k, v)
      end
  end.

(** ** [preds_from_torch_results] *)

(** [[float("-inf")] * 5] *)
Definition sentinel : row := repeat NegInf 5.

(** [{c: [[float("-inf")] * 5] for c in range(n_classes)}] *)
Definition init_dict (n_classes : Z) : pydict :=
  map (fun c => (c, VList [sentinel])) (range n_classes).

(** [*xywhc, c = r]: a row without fields cannot be unpacked. *)
Definition unpack (r : row) : result (row * pyfloat) :=
  match r with
  | [] => Raise ValueError
  | _ => Ok (removelast r, last r NegInf)
  end.

(** Body of the first loop: [preds_dict[c].append(xywhc)]. *)
Definition append_pred (d : pydict) (r : row) : result pydict :=
  uc <- unpack r ;;
  kv <- dict_getitem d (snd uc) ;;
  match snd kv with
  | VList rows => Ok (dict_set d (fst kv) (VList (rows ++ [fst uc])))
  | _ => Raise TypeError
  end.

(** [lambda x: x[-1]] *)
Definition sort_key (x : row) : result pyfloat :=
  match x with
  | [] => Raise IndexError
  | _ => Ok (last x NegInf)
  end.

(** The keys of all items are computed before any comparison. *)
Fixpoint decorate (rows : list row) : result (list (pyfloat * row)) :=
  match rows with
  | [] => Ok []
  | x :: rest =>
      k <- sort_key x ;;
      ds <- decorate rest ;;
      Ok ((k, x) :: ds)
  end.

(** Stable insertion: [x] goes before the first item whose key is not
    smaller than its own. *)
Fixpoint insert (x : pyfloat * row) (l : list (pyfloat * row)) :
    list (pyfloat * row) :=
  match l with
  | [] => [x]
  | y :: rest => if flt (fst y) (fst x) then y :: insert x rest else x :: y :: rest
  end.

(** [sorted(rows, key=lambda x: x[-1])]: ascending and stable.  On a total
    preorder the result of a stable sort is unique, so the insertion sort
    stands for Python's. *)
Definition sorted (rows : list row) : result (list row) :=
  ds <- decorate rows ;;
  Ok (map snd (fold_right insert [] ds)).

(** [float("-inf") in r] *)
Definition contains_neg_inf (r : row) : bool := existsb (feq NegInf) r.

(** Body of the second loop. *)
Definition pick_best (d : pydict) (c : Z) : result pydict :=
  match dict_get d c with
  | None => Raise KeyError
  | Some (VList rows) =>
      s <- sorted rows ;;
      match s with
      | [] => Raise IndexError
      | _ =>
          let best := last s [] in
          if contains_neg_inf best then Ok (dict_set d c VNone)
          else Ok (dict_set d c (VRow best))
      end
  | Some _ => Raise TypeError
  end.

(** [preds] is [results.xywhn[0].tolist()]; the value returned is
    [list(preds_dict.items())]. *)
Definition preds_from_torch_results (preds : list row) (n_classes : Z) :
    result (list (Z * dval)) :=
  d <- for_each append_pred preds (init_dict n_classes) ;;
  for_each pick_best (range n_classes) d.

(** ** Vocabulary of the statements about the reducer *)

(** The class of a row: the integer its last field is equal to. *)
Definition class_id (r : row) : option Z :=
  match r with
  | [] => None
  | _ => int_of_float (last r NegInf)
  end.

Definition has_class (k : Z) (r : row) : bool :=
  match class_id r with
  | Some k' => Z.eqb k' k
  | None => false
  end.

Definition class_in_range (n_classes : Z) (r : row) : bool :=
  match class_id r with
  | Some k => (0 <=? k)%Z && (k <? n_classes)%Z
  | None => false
  end.

(** A raw detection: the five floats [x, y, w, h, conf] and the class. *)
Definition is_raw_detection (r : row) : bool :=
  (length r =? 6)%nat && forallb is_finite r.

(** The predictions of class [k], in input order. *)
Definition bucket (k : Z) (preds : list row) : list row :=
  map (@removelast pyfloat) (filter (has_class k) preds).

(** The confidence of a prediction [[x, y, w, h, conf]]. *)
Definition conf_of (d : row) : pyfloat := last d NegInf.

(** A row the reducer takes: its last field is a class of the range and it
    has one other field at least. *)
Definition accepted (n : Z) (r : row) : Prop :=
  (exists k, class_id r = Some k /\ (0 <= k < n)%Z) /\ removelast r <> [].

(** Two rows tie when they have the same class and equal confidences;
    [no_ties] holds for a list without two rows that tie. *)
Definition tie (r r' : row) : bool :=
  match class_id r, class_id r' with
  | Some k, Some k' =>
      Z.eqb k k' && feq (conf_of (removelast r)) (conf_of (removelast r'))
  | _, _ => false
  end.

Fixpoint no_ties (preds : list row) : bool :=
  match preds with
  | [] => true
  | r :: rest => forallb (fun r' => negb (tie r r')) rest && no_ties rest
  end.

(** A dictionary given by its keys and a function of the key. *)
Definition tab (keys : list Z) (g : Z -> dval) : pydict :=
  map (fun k => (k, g k)) keys.

(** The last item of the sorted list, and what the second loop stores in
    its place. *)
Definition dec (r : row) : pyfloat * row := (last r NegInf, r).

Definition chosen (rows : list row) : row :=
  last (map snd (fold_right insert [] (map dec rows))) [].

Definition finalize (r : row) : dval :=
  if contains_neg_inf r then VNone else VRow r.

(** The order of the decorated items. *)
Definition key_le (a b : pyfloat * row) : Prop := fle (fst a) (fst b) = true.

(** A scan from the right that keeps the item met first (the later one in
    the list) unless an earlier one is strictly greater. *)
Fixpoint scan (ds : list (pyfloat * row)) : option (pyfloat * row) :=
  match ds with
  | [] => None
  | d :: rest =>
      match scan rest with
      | None => Some d
      | Some b => if flt (fst b) (fst d) then Some d else Some b
      end
  end.

(** ** [BBox]

    An attribute of a box holds [None], a float, or the 1-tuple [(None,)]
    that the assignment [self.x1 = None,] stores. *)

Inductive attr : Type :=
| ANone
| ANum (v : Q)
| ATupleNone.

Record BBox : Type := mkBBox {
  cls : Z;
  xywhc : option (list Q);
  x : attr; y : attr; w : attr; h : attr; conf : attr;
  x1 : attr; x2 : attr; y1 : attr; y2 : attr
}.

(** Truth value of [self.xywhc]: [None] and the empty list are false. *)
Definition truthy (o : option (list Q)) : bool :=
  match o with
  | Some (_ :: _) => true
  | _ => false
  end.

(** [BBox(pred)] with [pred = (cls, xywhc)]: [__init__] followed by
    [create_corners]; unpacking a list that has not five items raises. *)
Definition create_corners (pred : Z * option (list Q)) : result BBox :=
  let (c, o) := pred in
  if truthy o then
    match o with
    | Some [vx; vy; vw; vh; vc] =>
        Ok (mkBBox c o (ANum vx) (ANum vy) (ANum vw) (ANum vh) (ANum vc)
              (ANum (vx - vw / 2)) (ANum (vx + vw / 2))
              (ANum (vy - vh / 2)) (ANum (vy + vh / 2)))
    | _ => Raise ValueError
    end
  else
    Ok (mkBBox c o ANone ANone ANone ANone ANone
          ATupleNone ATupleNone ATupleNone ATupleNone).

(** [__bool__] *)
Definition bbox_bool (b : BBox) : bool :=
  match conf b with
  | ANone => false
  | _ => true
  end.

(** [a < b]: floats compare by value, two 1-tuples [(None,)] compare equal
    item by item, so neither is smaller; any other pair is unorderable. *)
Definition attr_lt (a b : attr) : result bool :=
  match a, b with
  | ANum p, ANum r => Ok (negb (Qle_bool r p))
  | ATupleNone, ATupleNone => Ok false
  | _, _ => Raise TypeError
  end.

(** [max(a, b)] keeps [a] unless [b > a]; [min(a, b)] keeps [a] unless
    [b < a]. *)
Definition pymax (a b : attr) : result attr :=
  g <- attr_lt a b ;; Ok (if g then b else a).

Definition pymin (a b : attr) : result attr :=
  l <- attr_lt b a ;; Ok (if l then b else a).

Definition attr_sub (a b : attr) : result attr :=
  match a, b with
  | ANum p, ANum r => Ok (ANum (p - r))
  | _, _ => Raise TypeError
  end.

Definition attr_mul (a b : attr) : result attr :=
  match a, b with
  | ANum p, ANum r => Ok (ANum (p * r))
  | _, _ => Raise TypeError
  end.

Definition attr_div (a b : attr) : result attr :=
  match a, b with
  | ANum p, ANum r =>
      if Qeq_bool r 0 then Raise ZeroDivisionError else Ok (ANum (p / r))
  | _, _ => Raise TypeError
  end.

(** [a and b] on comparisons: [b] is evaluated only when [a] is true. *)
Definition pyand (a b : result bool) : result bool :=
  t <- a ;; if t then b else Ok false.

Definition rectangular_area (ax1 ax2 ay1 ay2 : attr) : result attr :=
  dx <- attr_sub ax2 ax1 ;;
  dy <- attr_sub ay2 ay1 ;;
  attr_mul dx dy.

Definition intersection (self other : BBox) : result attr :=
  ix1 <- pymax (x1 self) (x1 other) ;;
  iy1 <- pymax (y1 self) (y1 other) ;;
  ix2 <- pymin (x2 self) (x2 other) ;;
  iy2 <- pymin (y2 self) (y2 other) ;;
  rectangular_area ix1 ix2 iy1 iy2.

Definition is_overlapping (self other : BBox) : result bool :=
  if truthy (xywhc self) && truthy (xywhc other) then
    pyand (attr_lt (x1 self) (x2 other))
      (pyand (attr_lt (y1 self) (y2 other))
         (pyand (attr_lt (x1 other) (x2 self))
            (attr_lt (y1 other) (y2 self))))
  else Ok false.

(** The initial [niou = 0] is the number zero. *)
Definition niou (self other : BBox) : result attr :=
  o <- is_overlapping self other ;;
  if o then
    intersection_area <- intersection self other ;;
    a_self <- rectangular_area (x1 self) (x2 self) (y1 self) (y2 self) ;;
    a_other <- rectangular_area (x1 other) (x2 other) (y1 other) (y2 other) ;;
    min_area <- pymin a_self a_other ;;
    attr_div intersection_area min_area
  else Ok (ANum 0).

(** The number that [max(a, b)] and [min(a, b)] return on two floats. *)
Definition qmax (a b : Q) : Q := if negb (Qle_bool b a) then b else a.
Definition qmin (a b : Q) : Q := if negb (Qle_bool a b) then b else a.

(** Python's [==] on attributes and on outcomes: numbers by value, an
    exception only with the same exception. *)
Definition attr_equiv (a b : attr) : Prop :=
  match a, b with
  | ANum p, ANum r => p == r
  | ANone, ANone => True
  | ATupleNone, ATupleNone => True
  | _, _ => False
  end.

Definition res_equiv (r s : result attr) : Prop :=
  match r, s with
  | Ok a, Ok b => attr_equiv a b
  | Raise e, Raise e' => e = e'
  | _, _ => False
  end.

(** A box with a detection whose four corners hold the given numbers. *)
Definition has_corners (A : BBox) (a1 b1 a2 b2 : Q) : Prop :=
  truthy (xywhc A) = true /\
  x1 A = ANum a1 /\ y1 A = ANum b1 /\ x2 A = ANum a2 /\ y2 A = ANum b2.

(** A prediction that carries a detection, and one that carries none. *)
Definition present (c : Z) (vx vy vw vh vc : Q) : Z * option (list Q) :=
  (c, Some [vx; vy; vw; vh; vc]).

Definition absent (c : Z) : Z * option (list Q) := (c, None).

(** Examples of the docstring and of the spec. *)

Definition fl (n : Z) (d : positive) : pyfloat := Fin (n # d).

Example reduce_two_same_class :
  preds_from_torch_results
    [[fl 5 10; fl 5 10; fl 2 10; fl 2 10; fl 9 10; fl 0 1];
     [fl 5 10; fl 5 10; fl 2 10; fl 2 10; fl 8 10; fl 0 1]] 3
  = Ok [(0%Z, VRow [fl 5 10; fl 5 10; fl 2 10; fl 2 10; fl 9 10]);
        (1%Z, VNone); (2%Z, VNone)].
Proof. reflexivity. Qed.

Example reduce_class_out_of_range :
  preds_from_torch_results
    [[fl 5 10; fl 5 10; fl 2 10; fl 2 10; fl 9 10; fl 5 1]] 3 = Raise KeyError.
Proof. reflexivity. Qed.

Example box_inside_box :
  exists A B,
    create_corners (present 0 (5#10) (5#10) (2#10) (2#10) 1) = Ok A /\
    create_corners (present 0 (5#10) (5#10) (1#10) (1#10) 1) = Ok B /\
    is_overlapping A B = Ok true /\
    exists v, niou A B = Ok (ANum v) /\ v == 1.
Proof.
  do 2 eexists. repeat split; try reflexivity.
  eexists. split; [ vm_compute; reflexivity | reflexivity ].
Qed.

(** * The reducer *)

Module Reducer.

(** ** The order of floats *)

Lemma flt_fin (p r : Q) : flt (Fin p) (Fin r) = true <-> p < r.
Proof.
  simpl. rewrite negb_true_iff, <- not_true_iff_false, Qle_bool_iff.
  split; [ apply Qnot_le_lt | apply Qlt_not_le ].
Qed.

Lemma flt_fin_false (p r : Q) : flt (Fin p) (Fin r) = false <-> r <= p.
Proof. simpl. rewrite negb_false_iff. apply Qle_bool_iff. Qed.

Lemma flt_trans (a b c : pyfloat) :
  flt a b = true -> flt b c = true -> flt a c = true.
Proof.
  destruct a as [|p], b as [|r], c as [|t]; try discriminate; try reflexivity.
  rewrite !flt_fin. lra.
Qed.

Lemma fle_flt_trans (a b c : pyfloat) :
  fle a b = true -> flt b c = true -> flt a c = true.
Proof.
  unfold fle. rewrite negb_true_iff.
  destruct a as [|p], b as [|r], c as [|t]; try discriminate; try reflexivity.
  rewrite flt_fin_false, !flt_fin. lra.
Qed.

Lemma fle_trans (a b c : pyfloat) :
  fle a b = true -> fle b c = true -> fle a c = true.
Proof.
  unfold fle. rewrite !negb_true_iff.
  destruct a as [|p], b as [|r], c as [|t]; try discriminate; try reflexivity.
  rewrite !flt_fin_false. lra.
Qed.

Lemma flt_fle (a b : pyfloat) : flt a b = true -> fle a b = true.
Proof.
  unfold fle. rewrite negb_true_iff.
  destruct a as [|p], b as [|r]; try discriminate; try reflexivity.
  rewrite flt_fin, flt_fin_false. lra.
Qed.

Lemma fle_refl (a : pyfloat) : fle a a = true.
Proof.
  unfold fle. rewrite negb_true_iff. destruct a as [|p]; [ reflexivity | ].
  apply flt_fin_false. lra.
Qed.

Lemma flt_neg_inf (a : pyfloat) : flt a NegInf = false.
Proof. now destruct a. Qed.

(** ** Ranges and tabulated dictionaries *)

Lemma in_range (n k : Z) : In k (range n) <-> (0 <= k < n)%Z.
Proof.
  unfold range. rewrite in_map_iff. split.
  - intros (i & <- & Hi). apply in_seq in Hi. lia.
  - intros Hk. exists (Z.to_nat k). split; [ lia | apply in_seq; lia ].
Qed.

Lemma NoDup_range (n : Z) : NoDup (range n).
Proof.
  unfold range. apply Injective_map_NoDup; [ | apply seq_NoDup ].
  intros a b. lia.
Qed.

Lemma tab_ext (keys : list Z) (g g' : Z -> dval) :
  (forall k, In k keys -> g k = g' k) -> tab keys g = tab keys g'.
Proof.
  intros E. apply map_ext_in. intros k Hk. now rewrite (E k Hk).
Qed.

Lemma dict_get_tab (keys : list Z) (g : Z -> dval) (k : Z) :
  In k keys -> dict_get (tab keys g) k = Some (g k).
Proof.
  induction keys as [|k' keys IH]; [ contradiction | ].
  simpl. destruct (Z.eqb_spec k' k) as [->|N]; [ reflexivity | ].
  intros [E|I]; [ contradiction | now apply IH ].
Qed.

Lemma dict_get_tab_none (keys : list Z) (g : Z -> dval) (k : Z) :
  ~ In k keys -> dict_get (tab keys g) k = None.
Proof.
  induction keys as [|k' keys IH]; [ reflexivity | ].
  simpl. intros N. destruct (Z.eqb_spec k' k) as [->|D]; [ tauto | ].
  apply IH. tauto.
Qed.

Lemma dict_set_tab (keys : list Z) (g : Z -> dval) (c : Z) (v : dval) :
  NoDup keys -> In c keys ->
  dict_set (tab keys g) c v = tab keys (fun k => if Z.eqb k c then v else g k).
Proof.
  induction keys as [|k' keys IH]; [ contradiction | ].
  intros ND I. inversion ND as [|? ? Nin ND']; subst. simpl.
  destruct (Z.eqb_spec k' c) as [->|D].
  - f_equal. apply tab_ext. intros k Hk.
    destruct (Z.eqb_spec k c) as [->|_]; [ contradiction | reflexivity ].
  - f_equal. destruct I as [E|I]; [ contradiction | now apply IH ].
Qed.

(** ** The first loop: predictions go to the list of their class *)

Lemma class_id_unpack (r : row) (k : Z) :
  class_id r = Some k ->
  unpack r = Ok (removelast r, last r NegInf) /\
  int_of_float (last r NegInf) = Some k.
Proof. destruct r; [ discriminate | ]. intros H. now split. Qed.

Lemma bucket_cons (k : Z) (r : row) (preds : list row) :
  bucket k (r :: preds) =
  if has_class k r then removelast r :: bucket k preds else bucket k preds.
Proof. unfold bucket. simpl. now destruct (has_class k r). Qed.

Lemma append_pred_tab (keys : list Z) (g : Z -> list row) (r : row) (k : Z) :
  NoDup keys -> class_id r = Some k -> In k keys ->
  append_pred (tab keys (fun c => VList (g c))) r =
  Ok (tab keys (fun c =>
        VList (if Z.eqb c k then g c ++ [removelast r] else g c))).
Proof.
  intros ND C I. destruct (class_id_unpack r _ C) as [U F].
  unfold append_pred, dict_getitem. rewrite U. cbn [bind snd fst]. rewrite F.
  rewrite (dict_get_tab _ _ _ I). cbn [bind snd fst].
  rewrite (dict_set_tab _ _ _ _ ND I). f_equal. apply tab_ext. intros c _.
  now destruct (Z.eqb_spec c k) as [->|_].
Qed.

Lemma first_loop_ok (keys : list Z) (preds : list row) :
  NoDup keys ->
  Forall (fun r => exists k, class_id r = Some k /\ In k keys) preds ->
  forall g : Z -> list row,
    for_each append_pred preds (tab keys (fun c => VList (g c))) =
    Ok (tab keys (fun c => VList (g c ++ bucket c preds))).
Proof.
  intros ND. induction 1 as [|r preds (k & C & I) _ IH]; intros g.
  - simpl. f_equal. apply tab_ext. intros c _. unfold bucket. simpl.
    now rewrite app_nil_r.
  - cbn [for_each]. rewrite (append_pred_tab _ g _ _ ND C I). cbn [bind].
    rewrite IH. f_equal. apply tab_ext. intros c _. rewrite bucket_cons.
    unfold has_class. rewrite C. rewrite (Z.eqb_sym k c).
    destruct (Z.eqb c k); [ now rewrite <- app_assoc | reflexivity ].
Qed.

(** A row whose class is no key of the dictionary stops the first loop
    with [KeyError], whatever follows it. *)
Lemma first_loop_key_error (keys : list Z) (preds : list row) :
  NoDup keys ->
  Forall (fun r => r <> []) preds ->
  Exists (fun r => forall k, class_id r = Some k -> ~ In k keys) preds ->
  forall g : Z -> list row,
    for_each append_pred preds (tab keys (fun c => VList (g c))) =
    Raise KeyError.
Proof.
  intros ND. induction preds as [|r preds IH]; intros NE EX g.
  - inversion EX.
  - inversion NE as [|? ? Hr NE']; subst. cbn [for_each].
    destruct (class_id r) as [k|] eqn:C.
    + destruct (in_dec Z.eq_dec k keys) as [I|N].
      * rewrite (append_pred_tab _ g _ _ ND C I). cbn [bind].
        apply IH; [ exact NE' | ].
        inversion EX as [? ? Bad|]; subst; [ | assumption ].
        exfalso. exact (Bad k C I).
      * destruct (class_id_unpack r _ C) as [U F].
        unfold append_pred, dict_getitem. rewrite U. cbn [bind snd fst].
        rewrite F. now rewrite (dict_get_tab_none _ _ _ N).
    + destruct r as [|a r']; [ contradiction | ].
      unfold append_pred, dict_getitem, unpack. cbn [bind snd fst].
      unfold class_id in C. now rewrite C.
Qed.

(** A row without fields stops the first loop with [ValueError]. *)
Lemma first_loop_value_error (keys : list Z) (pre post : list row) :
  NoDup keys ->
  Forall (fun r => exists k, class_id r = Some k /\ In k keys) pre ->
  forall g : Z -> list row,
    for_each append_pred (pre ++ [] :: post)
      (tab keys (fun c => VList (g c))) = Raise ValueError.
Proof.
  intros ND. induction 1 as [|r pre (k & C & I) _ IH]; intros g.
  - reflexivity.
  - cbn [for_each app]. rewrite (append_pred_tab _ g _ _ ND C I). cbn [bind].
    apply IH.
Qed.

(** ** Sorting: the last item of the sorted list *)

Lemma decorate_ok (rows : list row) :
  Forall (fun r => r <> []) rows -> decorate rows = Ok (map dec rows).
Proof.
  induction 1 as [|r rows Hr _ IH]; [ reflexivity | ].
  simpl. destruct r; [ contradiction | ]. cbn [sort_key bind].
  now rewrite IH.
Qed.

Lemma decorate_index_error (rows : list row) :
  Exists (fun r => r = []) rows -> decorate rows = Raise IndexError.
Proof.
  induction rows as [|r rows IH]; intros EX; [ inversion EX | ].
  simpl. destruct r as [|a r]; [ reflexivity | ]. cbn [sort_key bind].
  inversion EX as [? ? Bad|? ? EX']; subst; [ discriminate | ].
  now rewrite (IH EX').
Qed.

Lemma sorted_ok (rows : list row) :
  Forall (fun r => r <> []) rows ->
  sorted rows = Ok (map snd (fold_right insert [] (map dec rows))).
Proof. intros H. unfold sorted. now rewrite (decorate_ok rows H). Qed.

Lemma insert_not_nil (x : pyfloat * row) (l : list (pyfloat * row)) :
  insert x l <> [].
Proof. destruct l as [|y l]; simpl; [ | destruct (flt (fst y) (fst x)) ]; discriminate. Qed.

Lemma in_insert (x y : pyfloat * row) (l : list (pyfloat * row)) :
  In y (insert x l) <-> y = x \/ In y l.
Proof.
  induction l as [|z l IH]; simpl.
  - split; intros [E|F]; auto.
  - destruct (flt (fst z) (fst x)); simpl; [ rewrite IH | ]; intuition.
Qed.

Lemma last_cons (A : Type) (a d : A) (l : list A) :
  l <> [] -> last (a :: l) d = last l d.
Proof. destruct l; [ contradiction | reflexivity ]. Qed.

Lemma last_map (A B : Type) (f : A -> B) (l : list A) (d : A) :
  last (map f l) (f d) = f (last l d).
Proof.
  induction l as [|a l IH]; [ reflexivity | ].
  destruct l as [|b l]; [ reflexivity | ].
  change (last (map f (b :: l)) (f d) = f (last (b :: l) d)). exact IH.
Qed.

Lemma last_in (A : Type) (l : list A) (d : A) : l <> [] -> In (last l d) l.
Proof.
  induction l as [|a l IH]; [ contradiction | ]. intros _.
  destruct l as [|b l]; [ now left | ].
  right. apply IH. discriminate.
Qed.

(** Inserting into a list whose last item is a greatest one. *)
Lemma insert_last (x d0 : pyfloat * row) (l : list (pyfloat * row)) :
  l <> [] ->
  (forall y, In y l -> fle (fst y) (fst (last l d0)) = true) ->
  last (insert x l) d0 =
  if flt (fst (last l d0)) (fst x) then x else last l d0.
Proof.
  induction l as [|y l IH]; [ contradiction | ]. intros _ M.
  destruct l as [|z l].
  - simpl. now destruct (flt (fst y) (fst x)).
  - assert (NE : z :: l <> []) by discriminate.
    rewrite (last_cons _ y d0 _ NE) in *.
    change (insert x (y :: z :: l)) with
      (if flt (fst y) (fst x) then y :: insert x (z :: l) else x :: y :: z :: l).
    destruct (flt (fst y) (fst x)) eqn:Fyx.
    + rewrite (last_cons _ y d0 _ (insert_not_nil x (z :: l))).
      apply IH; [ exact NE | ]. intros t Ht. apply M. now right.
    + change (last (x :: y :: z :: l) d0) with (last (z :: l) d0).
      assert (Lxy : fle (fst x) (fst y) = true) by (unfold fle; now rewrite Fyx).
      assert (Lym : fle (fst y) (fst (last (z :: l) d0)) = true)
        by (apply M; now left).
      pose proof (fle_trans _ _ _ Lxy Lym) as Lxm. unfold fle in Lxm.
      apply negb_true_iff in Lxm. now rewrite Lxm.
Qed.

(** The last item of the sorted list is the one the scan keeps, and it is
    a greatest one. *)
Lemma sorted_scan (d0 : pyfloat * row) (ds : list (pyfloat * row)) :
  ds <> [] ->
  fold_right insert [] ds <> [] /\
  scan ds = Some (last (fold_right insert [] ds) d0) /\
  (forall y, In y (fold_right insert [] ds) ->
             fle (fst y) (fst (last (fold_right insert [] ds) d0)) = true).
Proof.
  induction ds as [|x ds IH]; [ contradiction | ]. intros _.
  destruct ds as [|x' ds].
  - simpl. split; [ discriminate | split; [ reflexivity | ] ].
    intros y [<-|[]]. apply fle_refl.
  - destruct IH as (NE & SC & M); [ discriminate | ].
    set (S := fold_right insert [] (x' :: ds)) in *.
    change (fold_right insert [] (x :: x' :: ds)) with (insert x S).
    change (scan (x :: x' :: ds)) with
      (match scan (x' :: ds) with
       | None => Some x
       | Some b => if flt (fst b) (fst x) then Some x else Some b
       end).
    rewrite SC, (insert_last x d0 S NE M).
    split; [ apply insert_not_nil | ].
    destruct (flt (fst (last S d0)) (fst x)) eqn:F.
    + split; [ reflexivity | ]. intros y Hy. apply in_insert in Hy.
      destruct Hy as [->|Hy]; [ apply fle_refl | ].
      apply flt_fle. exact (fle_flt_trans _ _ _ (M y Hy) F).
    + split; [ reflexivity | ]. intros y Hy. apply in_insert in Hy.
      destruct Hy as [->|Hy]; [ | now apply M ].
      unfold fle. now rewrite F.
Qed.

(** What the scan keeps: every item before it is not greater, every item
    after it is strictly smaller. *)
Lemma scan_split (ds : list (pyfloat * row)) (d : pyfloat * row) :
  scan ds = Some d ->
  exists l1 l2,
    ds = l1 ++ d :: l2 /\
    (forall e, In e l1 -> fle (fst e) (fst d) = true) /\
    (forall e, In e l2 -> flt (fst e) (fst d) = true).
Proof.
  revert d. induction ds as [|x ds IH]; intros d; [ discriminate | ].
  simpl. destruct (scan ds) as [b|] eqn:SC.
  - destruct (IH b eq_refl) as (l1 & l2 & E & B & A).
    destruct (flt (fst b) (fst x)) eqn:F; intros H; injection H as <-.
    + exists [], ds. split; [ reflexivity | split; [ intros e [] | ] ].
      intros e He. rewrite E in He. apply in_app_or in He.
      destruct He as [He|[<-|He]].
      * exact (fle_flt_trans _ _ _ (B e He) F).
      * exact F.
      * exact (flt_trans _ _ _ (A e He) F).
    + exists (x :: l1), l2. split; [ now rewrite E | split; [ | exact A ] ].
      intros e [<-|He]; [ | now apply B ]. unfold fle. now rewrite F.
  - intros H; injection H as <-. destruct ds as [|x' ds].
    + exists [], []. repeat split; intros e [].
    + exfalso. simpl in SC. destruct (scan ds); [ destruct (flt _ _) | ]; discriminate.
Qed.

(** ** The insertion sort is a stable sort

    The sorted list is a permutation of the items, ascending in the keys,
    and items with equal keys keep their order. *)

Lemma feq_flt_class (a b v : pyfloat) :
  feq a v = true -> flt b a = true -> feq b v = false.
Proof.
  destruct a as [|p], b as [|r], v as [|t]; try discriminate; try reflexivity.
  simpl feq. rewrite Qeq_bool_iff, flt_fin. intros E L.
  apply not_true_iff_false. rewrite Qeq_bool_iff. lra.
Qed.

Lemma insert_perm (x : pyfloat * row) (l : list (pyfloat * row)) :
  Permutation (x :: l) (insert x l).
Proof.
  induction l as [|y l IH]; simpl; [ reflexivity | ].
  destruct (flt (fst y) (fst x)); [ | reflexivity ].
  rewrite perm_swap. now apply perm_skip.
Qed.

Lemma insert_sorted (x : pyfloat * row) (l : list (pyfloat * row)) :
  StronglySorted key_le l -> StronglySorted key_le (insert x l).
Proof.
  induction 1 as [|y l S IH F]; simpl.
  - constructor; constructor.
  - destruct (flt (fst y) (fst x)) eqn:L.
    + constructor; [ exact IH | ].
      apply Forall_forall. intros z Hz. apply in_insert in Hz.
      destruct Hz as [->|Hz]; [ now apply flt_fle | ].
      rewrite Forall_forall in F. now apply F.
    + assert (Lxy : key_le x y) by (unfold key_le, fle; now rewrite L).
      constructor; [ now constructor | ].
      constructor; [ exact Lxy | ].
      eapply Forall_impl; [ | exact F ]. intros z Lyz.
      exact (fle_trans _ _ _ Lxy Lyz).
Qed.

Lemma insert_stable (v : pyfloat) (x : pyfloat * row)
    (l : list (pyfloat * row)) :
  filter (fun e => feq (fst e) v) (insert x l) =
  filter (fun e => feq (fst e) v) (x :: l).
Proof.
  induction l as [|y l IH]; [ reflexivity | ].
  simpl insert. destruct (flt (fst y) (fst x)) eqn:L; [ | reflexivity ].
  simpl filter in *. rewrite IH.
  destruct (feq (fst x) v) eqn:Ex; [ | reflexivity ].
  now rewrite (feq_flt_class _ _ _ Ex L).
Qed.

Lemma insertion_sort_stable (ds : list (pyfloat * row)) :
  Permutation ds (fold_right insert [] ds) /\
  StronglySorted key_le (fold_right insert [] ds) /\
  forall v, filter (fun e => feq (fst e) v) (fold_right insert [] ds) =
            filter (fun e => feq (fst e) v) ds.
Proof.
  induction ds as [|x ds (P & S & K)]; simpl.
  - split; [ reflexivity | split; [ constructor | reflexivity ] ].
  - split; [ | split ].
    + rewrite <- insert_perm. now apply perm_skip.
    + now apply insert_sorted.
    + intros v. rewrite insert_stable. simpl. now rewrite K.
Qed.

Lemma in_sorted (y : pyfloat * row) (ds : list (pyfloat * row)) :
  In y (fold_right insert [] ds) <-> In y ds.
Proof.
  induction ds as [|x ds IH]; simpl; [ tauto | ].
  rewrite in_insert, IH. intuition.
Qed.

Lemma chosen_scan (rows : list row) :
  rows <> [] ->
  exists m, scan (map dec rows) = Some m /\ chosen rows = snd m /\
            In m (map dec rows).
Proof.
  intros NE.
  assert (NE' : map dec rows <> []) by (destruct rows; [ contradiction | discriminate ]).
  destruct (sorted_scan (NegInf, []) (map dec rows) NE') as (NS & SC & _).
  eexists. split; [ exact SC | split ].
  - unfold chosen. exact (last_map _ _ snd _ (NegInf, [])).
  - apply in_sorted. exact (last_in _ _ (NegInf, []) NS).
Qed.

(** The prediction chosen among the rows of a list: a greatest confidence,
    and the last one of the list that has it. *)
Lemma chosen_split (rows : list row) :
  rows <> [] ->
  exists before d after,
    rows = before ++ d :: after /\ chosen rows = d /\
    (forall e, In e before -> fle (conf_of e) (conf_of d) = true) /\
    (forall e, In e after -> flt (conf_of e) (conf_of d) = true).
Proof.
  intros NE. destruct (chosen_scan rows NE) as (m & SC & CH & _).
  destruct (scan_split _ _ SC) as (l1 & l2 & E & B & A).
  apply map_eq_app in E. destruct E as (before & rest & -> & <- & E).
  apply map_eq_cons in E. destruct E as (d & after & -> & <- & <-).
  exists before, d, after. split; [ reflexivity | split; [ exact CH | split ] ].
  - intros e He. exact (B (dec e) (in_map dec _ _ He)).
  - intros e He. exact (A (dec e) (in_map dec _ _ He)).
Qed.

(** The sentinel never wins against a prediction. *)
Lemma chosen_sentinel (rows : list row) :
  rows <> [] -> chosen (sentinel :: rows) = chosen rows.
Proof.
  intros NE. destruct (chosen_scan rows NE) as (m & SC & CH & _).
  destruct (chosen_scan (sentinel :: rows)) as (m' & SC' & CH' & _);
    [ discriminate | ].
  simpl in SC'. rewrite SC in SC'. rewrite flt_neg_inf in SC'.
  injection SC' as <-. now rewrite CH, CH'.
Qed.

Lemma chosen_sentinel_only : finalize (chosen [sentinel]) = VNone.
Proof. reflexivity. Qed.

Lemma finite_not_neg_inf (r : row) :
  forallb is_finite r = true -> contains_neg_inf r = false.
Proof.
  unfold contains_neg_inf. induction r as [|a r IH]; [ reflexivity | ].
  simpl. rewrite andb_true_iff. intros [Fa Fr]. rewrite (IH Fr).
  now destruct a.
Qed.

(** ** The second loop *)

Lemma pick_best_tab (keys : list Z) (h : Z -> dval) (c : Z) (rows : list row) :
  NoDup keys -> In c keys -> h c = VList rows ->
  rows <> [] -> Forall (fun r => r <> []) rows ->
  pick_best (tab keys h) c =
  Ok (tab keys (fun k => if Z.eqb k c then finalize (chosen rows) else h k)).
Proof.
  intros ND I Hc NE F. unfold pick_best.
  rewrite (dict_get_tab _ _ _ I), Hc, (sorted_ok rows F). cbn [bind].
  assert (NS : map snd (fold_right insert [] (map dec rows)) <> []).
  { destruct rows as [|r rows]; [ contradiction | ]. simpl.
    pose proof (insert_not_nil (dec r) (fold_right insert [] (map dec rows))).
    destruct (insert (dec r) (fold_right insert [] (map dec rows)));
      [ contradiction | discriminate ]. }
  fold (chosen rows).
  destruct (map snd (fold_right insert [] (map dec rows))) as [|s0 s];
    [ contradiction | ].
  unfold finalize.
  destruct (contains_neg_inf (chosen rows));
    now rewrite (dict_set_tab _ _ _ _ ND I).
Qed.

Lemma pick_best_index_error (keys : list Z) (h : Z -> dval) (c : Z)
    (rows : list row) :
  In c keys -> h c = VList rows -> Exists (fun r => r = []) rows ->
  pick_best (tab keys h) c = Raise IndexError.
Proof.
  intros I Hc EX. unfold pick_best, sorted.
  now rewrite (dict_get_tab _ _ _ I), Hc, (decorate_index_error rows EX).
Qed.

Lemma second_loop_ok (keys : list Z) (B : Z -> list row) :
  NoDup keys ->
  forall todo : list Z,
    NoDup todo -> incl todo keys ->
    (forall k, In k todo -> B k <> [] /\ Forall (fun r => r <> []) (B k)) ->
    forall h : Z -> dval,
      (forall k, In k todo -> h k = VList (B k)) ->
      for_each pick_best todo (tab keys h) =
      Ok (tab keys (fun k => if in_dec Z.eq_dec k todo
                             then finalize (chosen (B k)) else h k)).
Proof.
  intros ND. induction todo as [|c todo IH]; intros NDt INC OKB h Hh.
  - reflexivity.
  - inversion NDt as [|? ? Nin NDt']; subst. cbn [for_each].
    destruct (OKB c (or_introl eq_refl)) as [NE F].
    rewrite (pick_best_tab keys h c (B c) ND (INC c (or_introl eq_refl))
               (Hh c (or_introl eq_refl)) NE F).
    cbn [bind]. rewrite IH; try assumption.
    + f_equal. apply tab_ext. intros k _.
      destruct (in_dec Z.eq_dec k todo) as [It|Nt];
        destruct (in_dec Z.eq_dec k (c :: todo)) as [Ic|Nc];
        destruct (Z.eqb_spec k c) as [->|D]; try reflexivity;
        try (exfalso; simpl in *; tauto).
      exfalso. destruct Ic as [E|Ic]; [ now apply D | contradiction ].
    + intros k Hk. apply INC. now right.
    + intros k Hk. apply OKB. now right.
    + intros k Hk. destruct (Z.eqb_spec k c) as [->|D]; [ contradiction | ].
      apply Hh. now right.
Qed.

(** ** The reducer as a table *)

Lemma bucket_in (k : Z) (preds : list row) (d : row) :
  In d (bucket k preds) -> exists r, In r preds /\ d = removelast r.
Proof.
  unfold bucket. rewrite in_map_iff. intros (r & <- & I).
  apply filter_In in I. exists r. tauto.
Qed.

Lemma reducer_table (preds : list row) (n : Z) :
  Forall (accepted n) preds ->
  preds_from_torch_results preds n =
  Ok (tab (range n) (fun k => finalize (chosen (sentinel :: bucket k preds)))).
Proof.
  intros ACC. unfold preds_from_torch_results, init_dict.
  change (map (fun c => (c, VList [sentinel])) (range n))
    with (tab (range n) (fun c => VList ((fun _ => [sentinel]) c))).
  rewrite (first_loop_ok (range n) preds (NoDup_range n)).
  - cbn [bind].
    rewrite (second_loop_ok (range n) (fun k => sentinel :: bucket k preds)
               (NoDup_range n) (range n) (NoDup_range n) (incl_refl _)).
    + f_equal. apply tab_ext. intros k Hk.
      destruct (in_dec Z.eq_dec k (range n)); [ reflexivity | contradiction ].
    + intros k _. split; [ discriminate | ].
      constructor; [ discriminate | ].
      apply Forall_forall. intros d Hd.
      destruct (bucket_in _ _ _ Hd) as (r & Ir & ->).
      rewrite Forall_forall in ACC. exact (proj2 (ACC r Ir)).
    + reflexivity.
  - eapply Forall_impl; [ | exact ACC ].
    intros r ((k & C & R) & _). exists k. split; [ exact C | now apply in_range ].
Qed.

Lemma second_loop_index_error (keys : list Z) (B : Z -> list row) :
  NoDup keys ->
  forall todo : list Z,
    NoDup todo -> incl todo keys ->
    (forall k, In k todo -> B k <> []) ->
    Exists (fun k => Exists (fun r => r = []) (B k)) todo ->
    forall h : Z -> dval,
      (forall k, In k todo -> h k = VList (B k)) ->
      for_each pick_best todo (tab keys h) = Raise IndexError.
Proof.
  intros ND. induction todo as [|c todo IH]; intros NDt INC NE EX h Hh.
  - inversion EX.
  - inversion NDt as [|? ? Nin NDt']; subst. cbn [for_each].
    assert (Ic : In c keys) by (apply INC; now left).
    assert (Hc : h c = VList (B c)) by (apply Hh; now left).
    destruct (Exists_dec (fun r : row => r = []) (B c)) as [Bad|Good].
    { intros r. destruct r; [ now left | now right ]. }
    + now rewrite (pick_best_index_error keys h c (B c) Ic Hc Bad).
    + apply Forall_Exists_neg in Good.
      rewrite (pick_best_tab keys h c (B c) ND Ic Hc
                 (NE c (or_introl eq_refl)) Good).
      cbn [bind]. apply IH; try assumption.
      * intros k Hk. apply INC. now right.
      * intros k Hk. apply NE. now right.
      * inversion EX as [? ? Bad|]; subst; [ | assumption ].
        exfalso. apply Forall_Exists_neg in Good. now apply Good.
      * intros k Hk. destruct (Z.eqb_spec k c) as [->|D]; [ contradiction | ].
        apply Hh. now right.
Qed.

(** ** Detections *)

Lemma class_in_range_spec (n : Z) (r : row) :
  class_in_range n r = true <->
  exists k, class_id r = Some k /\ (0 <= k < n)%Z.
Proof.
  unfold class_in_range. destruct (class_id r) as [k|].
  - rewrite andb_true_iff, Z.leb_le, Z.ltb_lt. split.
    + intros H. now exists k.
    + intros (k' & E & H). now injection E as ->.
  - split; [ discriminate | intros (k & E & _); discriminate ].
Qed.

Lemma forallb_removelast (A : Type) (f : A -> bool) (l : list A) :
  forallb f l = true -> forallb f (removelast l) = true.
Proof.
  induction l as [|a l IH]; [ reflexivity | ].
  destruct l as [|b l]; [ reflexivity | ].
  change (removelast (a :: b :: l)) with (a :: removelast (b :: l)).
  change (forallb f (a :: b :: l)) with (f a && forallb f (b :: l)).
  change (forallb f (a :: removelast (b :: l)))
    with (f a && forallb f (removelast (b :: l))).
  intros H. apply andb_true_iff in H. destruct H as [Fa Fl].
  apply andb_true_iff. split; [ exact Fa | exact (IH Fl) ].
Qed.

Lemma raw_detection_shape (r : row) :
  is_raw_detection r = true ->
  removelast r <> [] /\ forallb is_finite (removelast r) = true.
Proof.
  unfold is_raw_detection. rewrite andb_true_iff, Nat.eqb_eq. intros [L F].
  split; [ | now apply forallb_removelast ].
  destruct r as [|a [|b r]]; discriminate.
Qed.

Lemma detections_accepted (n : Z) (preds : list row) :
  forallb (fun r => is_raw_detection r && class_in_range n r) preds = true ->
  Forall (accepted n) preds.
Proof.
  rewrite forallb_forall. intros H. apply Forall_forall. intros r Hr.
  specialize (H r Hr). apply andb_true_iff in H. destruct H as [S C].
  split; [ now apply class_in_range_spec | apply (raw_detection_shape r S) ].
Qed.

Lemma bucket_finite (n k : Z) (preds : list row) (d : row) :
  forallb (fun r => is_raw_detection r && class_in_range n r) preds = true ->
  In d (bucket k preds) -> contains_neg_inf d = false.
Proof.
  rewrite forallb_forall. intros H Hd.
  destruct (bucket_in _ _ _ Hd) as (r & Ir & ->).
  specialize (H r Ir). apply andb_true_iff in H.
  apply finite_not_neg_inf. apply (raw_detection_shape r (proj1 H)).
Qed.

Lemma bucket_nil (k : Z) (preds : list row) :
  (forall r, In r preds -> class_id r <> Some k) -> bucket k preds = [].
Proof.
  induction preds as [|r preds IH]; intros H; [ reflexivity | ].
  rewrite bucket_cons. unfold has_class.
  destruct (class_id r) as [k'|] eqn:C.
  - destruct (Z.eqb_spec k' k) as [->|_].
    + exfalso. apply (H r); [ now left | exact C ].
    + apply IH. intros r' Hr'. apply H. now right.
  - apply IH. intros r' Hr'. apply H. now right.
Qed.

Lemma tab_keys (keys : list Z) (g : Z -> dval) : map fst (tab keys g) = keys.
Proof.
  unfold tab. rewrite map_map. simpl. apply map_id.
Qed.

Lemma in_tab (keys : list Z) (g : Z -> dval) (k : Z) :
  In k keys -> In (k, g k) (tab keys g).
Proof. intros I. unfold tab. now apply (in_map (fun c => (c, g c))). Qed.

(** ** The claims about the reducer *)

(** C1.  On a list of detections whose classes lie in [[0, n_classes)],
    the entry of every class that has predictions is one of them: no
    prediction of the class before it in input order has a greater
    confidence, and every prediction of the class after it has a strictly
    smaller one.  It is the last item of the stable ascending sort of the
    predictions of the class. *)
Theorem best_of_each_class (preds : list row) (n_classes : Z) :
  forallb (fun r => is_raw_detection r && class_in_range n_classes r) preds
    = true ->
  exists out,
    preds_from_torch_results preds n_classes = Ok out /\
    forall k, (0 <= k < n_classes)%Z -> bucket k preds <> [] ->
      exists before d after s,
        bucket k preds = before ++ d :: after /\
        dict_get out k = Some (VRow d) /\
        (forall e, In e before -> fle (conf_of e) (conf_of d) = true) /\
        (forall e, In e after -> flt (conf_of e) (conf_of d) = true) /\
        sorted (bucket k preds) = Ok s /\ last s [] = d.
Proof.
  intros D. pose proof (detections_accepted _ _ D) as ACC.
  eexists. split; [ exact (reducer_table preds n_classes ACC) | ].
  intros k Hk NE.
  destruct (chosen_split (bucket k preds) NE) as (before & d & after & E & CH & B & A).
  exists before, d, after, (map snd (fold_right insert [] (map dec (bucket k preds)))).
  split; [ exact E | ].
  split; [ | split; [ exact B | split; [ exact A | split; [ | exact CH ] ] ] ].
  - rewrite (dict_get_tab _ _ _ (proj2 (in_range n_classes k) Hk)).
    rewrite (chosen_sentinel _ NE), CH. unfold finalize.
    rewrite (bucket_finite n_classes k preds d D); [ reflexivity | ].
    rewrite E. apply in_or_app. right. now left.
  - apply sorted_ok. apply Forall_forall. intros e He.
    destruct (bucket_in _ _ _ He) as (r & Ir & ->).
    rewrite Forall_forall in ACC. exact (proj2 (ACC r Ir)).
Qed.

Lemma best_of_each_class_witness :
  exists out,
    preds_from_torch_results
      [[fl 1 10; fl 5 10; fl 2 10; fl 2 10; fl 9 10; fl 0 1];
       [fl 2 10; fl 5 10; fl 2 10; fl 2 10; fl 8 10; fl 1 1];
       [fl 3 10; fl 5 10; fl 2 10; fl 2 10; fl 9 10; fl 0 1];
       [fl 4 10; fl 5 10; fl 2 10; fl 2 10; fl 7 10; fl 0 1]] 2 = Ok out /\
    dict_get out 0 = Some (VRow [fl 3 10; fl 5 10; fl 2 10; fl 2 10; fl 9 10]).
Proof.
  destruct (best_of_each_class
      [[fl 1 10; fl 5 10; fl 2 10; fl 2 10; fl 9 10; fl 0 1];
       [fl 2 10; fl 5 10; fl 2 10; fl 2 10; fl 8 10; fl 1 1];
       [fl 3 10; fl 5 10; fl 2 10; fl 2 10; fl 9 10; fl 0 1];
       [fl 4 10; fl 5 10; fl 2 10; fl 2 10; fl 7 10; fl 0 1]] 2 eq_refl)
    as (out & E & _).
  exists out. split; [ exact E | ].
  vm_compute in E. injection E as <-. reflexivity.
Defined.

(** C2.  On a list of detections whose classes lie in [[0, n_classes)]
    with [n_classes >= 0], the reducer returns [n_classes] pairs whose
    classes are [0, 1, ..., n_classes - 1] in this order, and the entry of
    a class without detection is [None]; on the empty list every entry is
    [None]. *)
Theorem one_entry_per_class (preds : list row) (n_classes : Z) :
  (0 <= n_classes)%Z ->
  forallb (fun r => is_raw_detection r && class_in_range n_classes r) preds
    = true ->
  exists out,
    preds_from_torch_results preds n_classes = Ok out /\
    Z.of_nat (length out) = n_classes /\
    map fst out = range n_classes /\
    (forall k, (0 <= k < n_classes)%Z ->
       (forall r, In r preds -> class_id r <> Some k) ->
       In (k, VNone) out /\ dict_get out k = Some VNone) /\
    preds_from_torch_results [] n_classes =
    Ok (map (fun k => (k, VNone)) (range n_classes)).
Proof.
  intros N D. pose proof (detections_accepted _ _ D) as ACC.
  eexists. split; [ exact (reducer_table preds n_classes ACC) | ].
  split; [ | split; [ apply tab_keys | split ] ].
  - unfold tab, range. rewrite !length_map, length_seq. lia.
  - intros k Hk NoK. apply in_range in Hk.
    pose proof (in_tab (range n_classes)
      (fun c => finalize (chosen (sentinel :: bucket c preds))) k Hk) as I.
    rewrite (dict_get_tab _ _ _ Hk).
    cbv beta in I. rewrite (bucket_nil k preds NoK) in *.
    rewrite chosen_sentinel_only in *. now split.
  - rewrite (reducer_table [] n_classes (Forall_nil _)). reflexivity.
Qed.

Lemma one_entry_per_class_witness :
  exists out,
    preds_from_torch_results
      [[fl 5 10; fl 5 10; fl 2 10; fl 2 10; fl 9 10; fl 2 1]] 3 = Ok out /\
    map fst out = [0; 1; 2]%Z /\ In (1%Z, VNone) out.
Proof.
  destruct (one_entry_per_class
      [[fl 5 10; fl 5 10; fl 2 10; fl 2 10; fl 9 10; fl 2 1]] 3)
    as (out & E & _ & K & A & _); [ lia | reflexivity | ].
  exists out. split; [ exact E | split; [ exact K | ] ].
  apply (A 1%Z); [ lia | ].
  intros r [<-|[]]. discriminate.
Defined.

(** C3.  A list of rows (each with a field at least, as every detection
    has) one of which has a class that is not an integer of
    [[0, n_classes)] makes the reducer raise [KeyError], and the first
    loop raises it: nothing is returned, so the detection is neither
    dropped nor wrapped to another class. *)
Theorem class_out_of_range_raises (preds : list row) (n_classes : Z) :
  forallb (fun r => negb (Nat.eqb (length r) 0)) preds = true ->
  existsb (fun r => negb (class_in_range n_classes r)) preds = true ->
  for_each append_pred preds (init_dict n_classes) = Raise KeyError /\
  preds_from_torch_results preds n_classes = Raise KeyError.
Proof.
  intros NE EX.
  assert (L : for_each append_pred preds (init_dict n_classes) = Raise KeyError).
  { unfold init_dict.
    change (map (fun c => (c, VList [sentinel])) (range n_classes))
      with (tab (range n_classes) (fun c => VList ((fun _ => [sentinel]) c))).
    apply first_loop_key_error; [ apply NoDup_range | | ].
    - apply Forall_forall. intros r Hr.
      rewrite forallb_forall in NE. specialize (NE r Hr).
      destruct r; [ discriminate | discriminate ].
    - apply existsb_exists in EX. destruct EX as (r & Hr & C).
      apply Exists_exists. exists r. split; [ exact Hr | ].
      intros k Ck Ik. apply in_range in Ik.
      apply negb_true_iff in C. apply not_true_iff_false in C. apply C.
      apply class_in_range_spec. now exists k. }
  split; [ exact L | ]. unfold preds_from_torch_results. now rewrite L.
Qed.

Lemma class_out_of_range_raises_witness :
  preds_from_torch_results
    [[fl 5 10; fl 5 10; fl 2 10; fl 2 10; fl 9 10; fl 1 1];
     [fl 5 10; fl 5 10; fl 2 10; fl 2 10; fl 9 10; fl 5 1]] 3 = Raise KeyError /\
  preds_from_torch_results
    [[fl 5 10; fl 5 10; fl 2 10; fl 2 10; fl 9 10; Fin (-1)]] 3 = Raise KeyError.
Proof.
  split.
  - apply (class_out_of_range_raises
      [[fl 5 10; fl 5 10; fl 2 10; fl 2 10; fl 9 10; fl 1 1];
       [fl 5 10; fl 5 10; fl 2 10; fl 2 10; fl 9 10; fl 5 1]] 3); reflexivity.
  - apply (class_out_of_range_raises
      [[fl 5 10; fl 5 10; fl 2 10; fl 2 10; fl 9 10; Fin (-1)]] 3); reflexivity.
Defined.

Lemma in_bucket (k : Z) (preds : list row) (r : row) :
  In r preds -> class_id r = Some k -> In (removelast r) (bucket k preds).
Proof.
  intros I C. unfold bucket. apply in_map. apply filter_In. split; [ exact I | ].
  unfold has_class. rewrite C. apply Z.eqb_refl.
Qed.

Lemma classes_in_keys (n : Z) (preds : list row) :
  forallb (class_in_range n) preds = true ->
  Forall (fun r => exists k, class_id r = Some k /\ In k (range n)) preds.
Proof.
  rewrite forallb_forall. intros H. apply Forall_forall. intros r Hr.
  destruct (proj1 (class_in_range_spec n r) (H r Hr)) as (k & C & R).
  exists k. split; [ exact C | now apply in_range ].
Qed.

(** C4, as stated, fails: a row of three fields is taken as a prediction of
    two fields and a class. *)
Lemma wrong_arity_accepted :
  preds_from_torch_results [[fl 5 10; fl 9 10; fl 0 1]] 1 =
  Ok [(0%Z, VRow [fl 5 10; fl 9 10])].
Proof. reflexivity. Qed.

(** C4, amended.  The reducer does not check the arity of a row.  A row
    without fields raises [ValueError] in the first loop, when the rows
    before it have a class of the range.  When every row has a class of
    the range as its last field, a row that has no other field raises
    [IndexError] in the second loop, and rows of two fields or more, six or
    not, are reduced without error. *)
Theorem arity_not_checked (n_classes : Z) :
  (forall pre post : list row,
     forallb (class_in_range n_classes) pre = true ->
     for_each append_pred (pre ++ [] :: post) (init_dict n_classes)
       = Raise ValueError /\
     preds_from_torch_results (pre ++ [] :: post) n_classes = Raise ValueError) /\
  (forall preds : list row,
     forallb (class_in_range n_classes) preds = true ->
     existsb (fun r => Nat.eqb (length r) 1) preds = true ->
     preds_from_torch_results preds n_classes = Raise IndexError) /\
  (forall preds : list row,
     forallb (fun r => class_in_range n_classes r && Nat.leb 2 (length r)) preds
       = true ->
     exists out, preds_from_torch_results preds n_classes = Ok out).
Proof.
  assert (T : init_dict n_classes =
              tab (range n_classes) (fun c => VList ((fun _ => [sentinel]) c)))
    by reflexivity.
  split; [ | split ].
  - intros pre post C.
    assert (L : for_each append_pred (pre ++ [] :: post) (init_dict n_classes)
                = Raise ValueError).
    { rewrite T. apply first_loop_value_error; [ apply NoDup_range | ].
      now apply classes_in_keys. }
    split; [ exact L | ]. unfold preds_from_torch_results. now rewrite L.
  - intros preds C One. unfold preds_from_torch_results. rewrite T.
    rewrite (first_loop_ok (range n_classes) preds (NoDup_range n_classes)
               (classes_in_keys _ _ C)).
    cbn [bind].
    apply (second_loop_index_error (range n_classes)
             (fun k => sentinel :: bucket k preds) (NoDup_range n_classes)
             (range n_classes) (NoDup_range n_classes) (incl_refl _)).
    + intros k _. discriminate.
    + apply existsb_exists in One. destruct One as (r & Ir & Lr).
      apply Nat.eqb_eq in Lr.
      rewrite forallb_forall in C.
      destruct (proj1 (class_in_range_spec _ r) (C r Ir)) as (k & Ck & Rk).
      apply Exists_exists. exists k. split; [ now apply in_range | ].
      apply Exists_cons_tl. apply Exists_exists. exists (removelast r).
      split; [ now apply in_bucket | ].
      destruct r as [|a [|b r]]; try discriminate. reflexivity.
    + reflexivity.
  - intros preds C. eexists. apply reducer_table.
    rewrite forallb_forall in C. apply Forall_forall. intros r Hr.
    specialize (C r Hr). apply andb_true_iff in C. destruct C as [Cr Lr].
    split; [ now apply class_in_range_spec | ].
    apply Nat.leb_le in Lr. destruct r as [|a [|b r]]; simpl in Lr; try lia.
    discriminate.
Qed.

Lemma arity_not_checked_witness :
  preds_from_torch_results [[fl 5 10; fl 9 10; fl 0 1]; []] 1 = Raise ValueError /\
  preds_from_torch_results [[fl 5 10; fl 9 10; fl 0 1]; [fl 0 1]] 1
    = Raise IndexError /\
  exists out,
    preds_from_torch_results
      [[fl 5 10; fl 9 10; fl 0 1];
       [fl 5 10; fl 5 10; fl 2 10; fl 2 10; fl 1 10; fl 8 10; fl 0 1]] 1 = Ok out.
Proof.
  destruct (arity_not_checked 1) as (V & I & A). split; [ | split ].
  - apply (V [[fl 5 10; fl 9 10; fl 0 1]] []). reflexivity.
  - apply (I [[fl 5 10; fl 9 10; fl 0 1]; [fl 0 1]]); reflexivity.
  - apply (A [[fl 5 10; fl 9 10; fl 0 1];
              [fl 5 10; fl 5 10; fl 2 10; fl 2 10; fl 1 10; fl 8 10; fl 0 1]]).
    reflexivity.
Defined.

(** * Further properties of the reducer *)

Lemma accepted_of_bool (n : Z) (preds : list row) :
  forallb (fun r => class_in_range n r && Nat.leb 2 (length r)) preds = true ->
  Forall (accepted n) preds.
Proof.
  rewrite forallb_forall. intros C. apply Forall_forall. intros r Hr.
  specialize (C r Hr). apply andb_true_iff in C. destruct C as [Cr Lr].
  split; [ now apply class_in_range_spec | ].
  apply Nat.leb_le in Lr. destruct r as [|a [|b r]]; simpl in Lr; try lia.
  discriminate.
Qed.

(** The entry of a class, given the predictions of the class. *)
Lemma entry_cases (rows : list row) :
  (rows = [] /\ finalize (chosen (sentinel :: rows)) = VNone) \/
  (rows <> [] /\ In (chosen rows) rows /\
   finalize (chosen (sentinel :: rows)) =
   if contains_neg_inf (chosen rows) then VNone else VRow (chosen rows)).
Proof.
  destruct rows as [|d rows]; [ left; now split | right ].
  assert (NE : d :: rows <> []) by discriminate.
  split; [ exact NE | ]. rewrite (chosen_sentinel _ NE). split; [ | reflexivity ].
  destruct (chosen_split _ NE) as (before & e & after & E & -> & _).
  rewrite E. apply in_or_app. right. now left.
Qed.

Lemma in_tab_inv (keys : list Z) (g : Z -> dval) (k : Z) (v : dval) :
  In (k, v) (tab keys g) -> In k keys /\ v = g k.
Proof.
  unfold tab. rewrite in_map_iff. intros (c & E & I). injection E as -> <-.
  now split.
Qed.

Lemma bucket_in_class (k : Z) (preds : list row) (d : row) :
  In d (bucket k preds) ->
  exists r, In r preds /\ class_id r = Some k /\ d = removelast r.
Proof.
  unfold bucket. rewrite in_map_iff. intros (r & <- & I).
  apply filter_In in I. destruct I as [I C]. exists r.
  split; [ exact I | split; [ | reflexivity ] ].
  unfold has_class in C. destruct (class_id r) as [k'|]; [ | discriminate ].
  apply Z.eqb_eq in C. now subst.
Qed.

(** X12.  When every row has two fields at least and a class of the range,
    each value of the result is [None] or the fields before the class of
    an input row of that class, and such a value never holds the sentinel
    [-inf]. *)
Theorem result_values (preds : list row) (n_classes : Z) :
  forallb (fun r => class_in_range n_classes r && Nat.leb 2 (length r)) preds
    = true ->
  exists out,
    preds_from_torch_results preds n_classes = Ok out /\
    forall k v, In (k, v) out ->
      v = VNone \/
      exists r, In r preds /\ class_id r = Some k /\
                v = VRow (removelast r) /\
                contains_neg_inf (removelast r) = false.
Proof.
  intros C. eexists.
  split; [ exact (reducer_table preds n_classes (accepted_of_bool _ _ C)) | ].
  intros k v I. apply in_tab_inv in I. destruct I as [_ ->].
  destruct (entry_cases (bucket k preds)) as [[_ ->]|(NE & I & ->)];
    [ now left | ].
  destruct (contains_neg_inf (chosen (bucket k preds))) eqn:N; [ now left | ].
  right. destruct (bucket_in_class _ _ _ I) as (r & Ir & Cr & E).
  exists r. rewrite <- E. now repeat split.
Qed.

Lemma result_values_witness :
  exists out,
    preds_from_torch_results
      [[fl 5 10; fl 9 10; fl 1 1]; [NegInf; fl 8 10; fl 0 1]] 2 = Ok out /\
    In (1%Z, VRow [fl 5 10; fl 9 10]) out.
Proof.
  destruct (result_values
              [[fl 5 10; fl 9 10; fl 1 1]; [NegInf; fl 8 10; fl 0 1]] 2 eq_refl)
    as (out & E & _).
  exists out. split; [ exact E | ].
  vm_compute in E. injection E as <-. right. now left.
Defined.

(** X13.  On detections whose classes lie in the range, each value of the
    result is [None] or a list of five finite floats, which is what
    [BBox] unpacks. *)
Theorem result_rows_have_five_floats (preds : list row) (n_classes : Z) :
  forallb (fun r => is_raw_detection r && class_in_range n_classes r) preds
    = true ->
  exists out,
    preds_from_torch_results preds n_classes = Ok out /\
    forall k v, In (k, v) out ->
      v = VNone \/
      exists d, v = VRow d /\ length d = 5%nat /\ forallb is_finite d = true.
Proof.
  intros D. eexists.
  split; [ exact (reducer_table preds n_classes (detections_accepted _ _ D)) | ].
  intros k v I. apply in_tab_inv in I. destruct I as [_ ->].
  destruct (entry_cases (bucket k preds)) as [[_ ->]|(NE & I & ->)];
    [ now left | ].
  destruct (contains_neg_inf (chosen (bucket k preds))) eqn:N; [ now left | ].
  right. exists (chosen (bucket k preds)). split; [ reflexivity | ].
  destruct (bucket_in_class _ _ _ I) as (r & Ir & _ & E). rewrite E.
  rewrite forallb_forall in D. specialize (D r Ir).
  apply andb_true_iff in D. destruct D as [S _].
  split; [ | apply (raw_detection_shape r S) ].
  unfold is_raw_detection in S. apply andb_true_iff in S. destruct S as [L _].
  apply Nat.eqb_eq in L.
  destruct r as [|a [|b [|c [|d [|e [|f [|g r]]]]]]]; try discriminate.
  reflexivity.
Qed.

Lemma result_rows_have_five_floats_witness :
  exists out,
    preds_from_torch_results
      [[fl 5 10; fl 5 10; fl 2 10; fl 2 10; fl 9 10; fl 1 1]] 2 = Ok out /\
    out = [(0%Z, VNone); (1%Z, VRow [fl 5 10; fl 5 10; fl 2 10; fl 2 10; fl 9 10])].
Proof.
  destruct (result_rows_have_five_floats
              [[fl 5 10; fl 5 10; fl 2 10; fl 2 10; fl 9 10; fl 1 1]] 2 eq_refl)
    as (out & E & _).
  exists out. split; [ exact E | ].
  vm_compute in E. now injection E as <-.
Defined.

(** X14.  The entry of a class is [None] exactly when the class has no
    prediction or when the prediction the sort puts last holds [-inf]
    among its values: such a prediction hides the class, whatever other
    predictions the class has. *)
Theorem none_iff_empty_or_neg_inf (preds : list row) (n_classes k : Z) :
  forallb (fun r => class_in_range n_classes r && Nat.leb 2 (length r)) preds
    = true ->
  (0 <= k < n_classes)%Z ->
  exists out,
    preds_from_torch_results preds n_classes = Ok out /\
    (dict_get out k = Some VNone <->
     bucket k preds = [] \/
     exists s, sorted (bucket k preds) = Ok s /\
               contains_neg_inf (last s []) = true).
Proof.
  intros C Hk. pose proof (accepted_of_bool _ _ C) as ACC. eexists.
  split; [ exact (reducer_table preds n_classes ACC) | ].
  rewrite (dict_get_tab _ _ _ (proj2 (in_range n_classes k) Hk)).
  assert (S : sorted (bucket k preds) =
              Ok (map snd (fold_right insert [] (map dec (bucket k preds))))).
  { apply sorted_ok. apply Forall_forall. intros e He.
    destruct (bucket_in _ _ _ He) as (r & Ir & ->).
    rewrite Forall_forall in ACC. exact (proj2 (ACC r Ir)). }
  destruct (entry_cases (bucket k preds)) as [[E ->]|(NE & _ & ->)].
  - split; [ now left | reflexivity ].
  - split.
    + intros H. right. eexists. split; [ exact S | ]. fold (chosen (bucket k preds)).
      destruct (contains_neg_inf (chosen (bucket k preds)));
        [ reflexivity | discriminate ].
    + intros [E|(s & Ss & N)]; [ contradiction | ].
      rewrite S in Ss. injection Ss as <-. fold (chosen (bucket k preds)) in N.
      now rewrite N.
Qed.

Lemma none_iff_empty_or_neg_inf_witness :
  exists out,
    preds_from_torch_results
      [[fl 5 10; fl 5 10; fl 2 10; fl 2 10; fl 7 10; fl 0 1];
       [NegInf; fl 5 10; fl 2 10; fl 2 10; fl 9 10; fl 0 1]] 1 = Ok out /\
    dict_get out 0 = Some VNone.
Proof.
  destruct (none_iff_empty_or_neg_inf
      [[fl 5 10; fl 5 10; fl 2 10; fl 2 10; fl 7 10; fl 0 1];
       [NegInf; fl 5 10; fl 2 10; fl 2 10; fl 9 10; fl 0 1]] 1 0 eq_refl)
    as (out & E & I); [ lia | ].
  exists out. split; [ exact E | ].
  apply I. right. eexists. split; reflexivity.
Defined.

Lemma dict_get_tab_ext (keys : list Z) (g g' : Z -> dval) (k : Z) :
  g k = g' k -> dict_get (tab keys g) k = dict_get (tab keys g') k.
Proof.
  intros E. induction keys as [|c keys IH]; [ reflexivity | ].
  simpl. destruct (Z.eqb_spec c k) as [->|_]; [ now rewrite E | exact IH ].
Qed.

(** X15.  The entry of a class depends on the predictions of that class
    only: two inputs with the same predictions of class [k], in the same
    order, give class [k] the same entry, however their other rows
    differ. *)
Theorem entry_depends_on_own_class (preds preds' : list row)
    (n_classes k : Z) :
  forallb (fun r => class_in_range n_classes r && Nat.leb 2 (length r)) preds
    = true ->
  forallb (fun r => class_in_range n_classes r && Nat.leb 2 (length r)) preds'
    = true ->
  bucket k preds = bucket k preds' ->
  exists out out',
    preds_from_torch_results preds n_classes = Ok out /\
    preds_from_torch_results preds' n_classes = Ok out' /\
    dict_get out k = dict_get out' k.
Proof.
  intros C C' E. do 2 eexists.
  split; [ exact (reducer_table preds n_classes (accepted_of_bool _ _ C)) | ].
  split; [ exact (reducer_table preds' n_classes (accepted_of_bool _ _ C')) | ].
  apply dict_get_tab_ext. now rewrite E.
Qed.

Lemma entry_depends_on_own_class_witness :
  exists out out',
    preds_from_torch_results
      [[fl 1 10; fl 9 10; fl 0 1]; [fl 2 10; fl 8 10; fl 1 1];
       [fl 3 10; fl 7 10; fl 0 1]] 3 = Ok out /\
    preds_from_torch_results
      [[fl 5 10; fl 5 10; fl 2 1]; [fl 1 10; fl 9 10; fl 0 1];
       [fl 3 10; fl 7 10; fl 0 1]] 3 = Ok out' /\
    dict_get out 0 = dict_get out' 0.
Proof.
  apply (entry_depends_on_own_class
      [[fl 1 10; fl 9 10; fl 0 1]; [fl 2 10; fl 8 10; fl 1 1];
       [fl 3 10; fl 7 10; fl 0 1]]
      [[fl 5 10; fl 5 10; fl 2 1]; [fl 1 10; fl 9 10; fl 0 1];
       [fl 3 10; fl 7 10; fl 0 1]] 3 0); reflexivity.
Defined.

(** ** One more detection *)

(** The list of a class splits in one way only around an item that no
    earlier item exceeds and that exceeds every later item. *)
Lemma split_unique (b1 a1 b2 a2 : list row) (d1 d2 : row) :
  b1 ++ d1 :: a1 = b2 ++ d2 :: a2 ->
  (forall e, In e b1 -> fle (conf_of e) (conf_of d1) = true) ->
  (forall e, In e a1 -> flt (conf_of e) (conf_of d1) = true) ->
  (forall e, In e b2 -> fle (conf_of e) (conf_of d2) = true) ->
  (forall e, In e a2 -> flt (conf_of e) (conf_of d2) = true) ->
  d1 = d2.
Proof.
  revert b2. induction b1 as [|x b1 IH]; intros b2 E B1 A1 B2 A2.
  - destruct b2 as [|y b2]; simpl in E; injection E as E1 E2; [ exact E1 | ].
    exfalso. subst y.
    assert (L : flt (conf_of d2) (conf_of d1) = true).
    { apply A1. rewrite E2. apply in_or_app. right. now left. }
    pose proof (B2 d1 (or_introl eq_refl)) as G. unfold fle in G.
    rewrite L in G. discriminate.
  - destruct b2 as [|y b2]; simpl in E; injection E as E1 E2.
    + exfalso. subst x.
      assert (L : flt (conf_of d1) (conf_of d2) = true).
      { apply A2. rewrite <- E2. apply in_or_app. right. now left. }
      pose proof (B1 d2 (or_introl eq_refl)) as G. unfold fle in G.
      rewrite L in G. discriminate.
    + apply (IH b2 E2); try assumption.
      * intros e He. apply B1. now right.
      * intros e He. apply B2. now right.
Qed.

Lemma chosen_unique (rows before after : list row) (d : row) :
  rows = before ++ d :: after ->
  (forall e, In e before -> fle (conf_of e) (conf_of d) = true) ->
  (forall e, In e after -> flt (conf_of e) (conf_of d) = true) ->
  chosen rows = d.
Proof.
  intros E B A.
  assert (NE : rows <> []) by (rewrite E; now destruct before).
  destruct (chosen_split rows NE) as (b' & d' & a' & E' & CH & B' & A').
  rewrite CH. rewrite E in E'. symmetry.
  exact (split_unique _ _ _ _ _ _ E' B A B' A').
Qed.

Lemma chosen_max (rows : list row) (e : row) :
  In e rows -> fle (conf_of e) (conf_of (chosen rows)) = true.
Proof.
  intros I. assert (NE : rows <> []) by (intros ->; contradiction).
  destruct (chosen_split rows NE) as (b & d & a & E & -> & B & A).
  rewrite E in I. apply in_app_or in I. destruct I as [I|[<-|I]].
  - now apply B.
  - apply fle_refl.
  - apply flt_fle. now apply A.
Qed.

Lemma chosen_snoc (rows : list row) (x : row) :
  rows <> [] ->
  chosen (rows ++ [x]) =
  if flt (conf_of x) (conf_of (chosen rows)) then chosen rows else x.
Proof.
  intros NE. destruct (flt (conf_of x) (conf_of (chosen rows))) eqn:L.
  - destruct (chosen_split rows NE) as (b & d & a & E & CH & B & A).
    rewrite CH in *. apply (chosen_unique _ b (a ++ [x])).
    + rewrite E at 1. now rewrite <- app_assoc.
    + exact B.
    + intros e He. apply in_app_or in He. destruct He as [He|[<-|[]]];
        [ now apply A | exact L ].
  - apply (chosen_unique _ rows []); [ reflexivity | | intros e [] ].
    intros e He. apply (fle_trans _ (conf_of (chosen rows))).
    + now apply chosen_max.
    + unfold fle. now rewrite L.
Qed.

Lemma bucket_app (k : Z) (l1 l2 : list row) :
  bucket k (l1 ++ l2) = bucket k l1 ++ bucket k l2.
Proof. unfold bucket. now rewrite filter_app, map_app. Qed.

(** X16.  One more detection at the end of the input changes the entry of
    its own class only.  It becomes the entry unless the class already has
    an entry of strictly greater confidence. *)
Theorem one_more_detection (preds : list row) (r : row) (n_classes c : Z) :
  forallb (fun r => is_raw_detection r && class_in_range n_classes r)
    (preds ++ [r]) = true ->
  class_id r = Some c ->
  exists out out',
    preds_from_torch_results preds n_classes = Ok out /\
    preds_from_torch_results (preds ++ [r]) n_classes = Ok out' /\
    (forall k, k <> c -> dict_get out' k = dict_get out k) /\
    dict_get out' c =
    Some (VRow match dict_get out c with
               | Some (VRow d) =>
                   if flt (conf_of (removelast r)) (conf_of d) then d
                   else removelast r
               | _ => removelast r
               end).
Proof.
  intros D C.
  assert (D0 : forallb (fun r => is_raw_detection r && class_in_range n_classes r)
                 preds = true /\
               is_raw_detection r && class_in_range n_classes r = true).
  { rewrite forallb_app in D. apply andb_true_iff in D. destruct D as [D1 D2].
    simpl in D2. rewrite andb_true_r in D2. now split. }
  destruct D0 as [D1 D2]. apply andb_true_iff in D2. destruct D2 as [S R].
  assert (Rc : (0 <= c < n_classes)%Z).
  { apply class_in_range_spec in R. destruct R as (k & Ck & Rk). congruence. }
  do 2 eexists.
  split; [ exact (reducer_table preds n_classes (detections_accepted _ _ D1)) | ].
  split; [ exact (reducer_table _ n_classes (detections_accepted _ _ D)) | ].
  split.
  - intros k N. apply dict_get_tab_ext. rewrite bucket_app.
    unfold bucket at 2. simpl. unfold has_class. rewrite C.
    destruct (Z.eqb_spec c k) as [->|_]; [ contradiction | ].
    simpl. now rewrite app_nil_r.
  - rewrite !(dict_get_tab _ _ _ (proj2 (in_range n_classes c) Rc)).
    rewrite bucket_app. unfold bucket at 2. simpl. unfold has_class. rewrite C.
    rewrite Z.eqb_refl. simpl map.
    assert (F : contains_neg_inf (removelast r) = false).
    { apply finite_not_neg_inf. apply (raw_detection_shape r S). }
    destruct (entry_cases (bucket c preds)) as [[E ->]|(NE & I & ->)].
    + rewrite E. simpl app. unfold finalize.
      rewrite (chosen_sentinel [removelast r]) by discriminate.
      change (chosen [removelast r]) with (removelast r). now rewrite F.
    + rewrite (bucket_finite n_classes c preds _ D1 I).
      unfold finalize. rewrite chosen_sentinel by (now destruct (bucket c preds)).
      rewrite (chosen_snoc _ _ NE).
      destruct (flt (conf_of (removelast r)) (conf_of (chosen (bucket c preds)))).
      * now rewrite (bucket_finite n_classes c preds _ D1 I).
      * now rewrite F.
Qed.

Lemma one_more_detection_witness :
  exists out out',
    preds_from_torch_results
      [[fl 1 10; fl 5 10; fl 2 10; fl 2 10; fl 9 10; fl 0 1]] 2 = Ok out /\
    preds_from_torch_results
      [[fl 1 10; fl 5 10; fl 2 10; fl 2 10; fl 9 10; fl 0 1];
       [fl 2 10; fl 5 10; fl 2 10; fl 2 10; fl 9 10; fl 0 1]] 2 = Ok out' /\
    dict_get out' 0 = Some (VRow [fl 2 10; fl 5 10; fl 2 10; fl 2 10; fl 9 10]).
Proof.
  destruct (one_more_detection
              [[fl 1 10; fl 5 10; fl 2 10; fl 2 10; fl 9 10; fl 0 1]]
              [fl 2 10; fl 5 10; fl 2 10; fl 2 10; fl 9 10; fl 0 1] 2 0
              eq_refl eq_refl) as (out & out' & E & E' & _ & N).
  exists out, out'. split; [ exact E | split; [ exact E' | ] ].
  rewrite N. vm_compute in E. injection E as <-. reflexivity.
Defined.

(** ** The order of the input *)

Lemma feq_sym (a b : pyfloat) : feq a b = feq b a.
Proof. destruct a, b; try reflexivity. apply Qeq_bool_comm. Qed.

Lemma fle_antisym (a b : pyfloat) :
  fle a b = true -> fle b a = true -> feq a b = true.
Proof.
  unfold fle. rewrite !negb_true_iff.
  destruct a as [|p], b as [|r]; try discriminate; try reflexivity.
  rewrite !flt_fin_false. intros L1 L2. apply Qeq_bool_iff. lra.
Qed.

Lemma tie_sym (r r' : row) : tie r r' = tie r' r.
Proof.
  unfold tie. destruct (class_id r), (class_id r'); try reflexivity.
  now rewrite Z.eqb_sym, feq_sym.
Qed.

Lemma no_ties_in (preds : list row) (r r' : row) :
  no_ties preds = true -> In r preds -> In r' preds -> tie r r' = true ->
  r = r'.
Proof.
  induction preds as [|x preds IH]; [ contradiction | ].
  simpl. rewrite andb_true_iff, forallb_forall. intros [F N] I I' T.
  destruct I as [->|I], I' as [->|I'].
  - reflexivity.
  - specialize (F r' I'). rewrite T in F. discriminate.
  - specialize (F r I). rewrite tie_sym, T in F. discriminate.
  - now apply IH.
Qed.

(** X17.  When no two detections of one class have equal confidences, the
    result does not depend on the order of the detections. *)
Theorem order_irrelevant_without_ties (preds preds' : list row)
    (n_classes : Z) :
  forallb (fun r => is_raw_detection r && class_in_range n_classes r) preds
    = true ->
  no_ties preds = true ->
  Permutation preds preds' ->
  exists out,
    preds_from_torch_results preds n_classes = Ok out /\
    preds_from_torch_results preds' n_classes = Ok out.
Proof.
  intros D NT P.
  assert (D' : forallb (fun r => is_raw_detection r && class_in_range n_classes r)
                 preds' = true).
  { rewrite forallb_forall in *. intros r Hr. apply D.
    exact (Permutation_in r (Permutation_sym P) Hr). }
  eexists.
  split; [ exact (reducer_table preds n_classes (detections_accepted _ _ D)) | ].
  rewrite (reducer_table preds' n_classes (detections_accepted _ _ D')).
  f_equal. apply tab_ext. intros k _.
  assert (M : forall d, In d (bucket k preds) <-> In d (bucket k preds')).
  { intros d. split; intros I;
      destruct (bucket_in_class _ _ _ I) as (r & Ir & Cr & ->);
      apply in_bucket; try assumption.
    - exact (Permutation_in r P Ir).
    - exact (Permutation_in r (Permutation_sym P) Ir). }
  destruct (entry_cases (bucket k preds)) as [[E ->]|(NE & I & ->)];
    destruct (entry_cases (bucket k preds')) as [[E' ->]|(NE' & I' & ->)].
  - reflexivity.
  - exfalso. apply M in I'. rewrite E in I'. contradiction.
  - exfalso. apply M in I. rewrite E' in I. contradiction.
  - assert (EQ : chosen (bucket k preds') = chosen (bucket k preds)).
    { pose proof (chosen_max _ _ (proj2 (M _) I')) as L1.
      pose proof (chosen_max _ _ (proj1 (M _) I)) as L2.
      pose proof (fle_antisym _ _ L1 L2) as T.
      destruct (bucket_in_class _ _ _ I) as (r & Ir & Cr & Er).
      destruct (bucket_in_class _ _ _ (proj2 (M _) I')) as (r' & Ir' & Cr' & Er').
      rewrite Er, Er' in *.
      f_equal. apply (no_ties_in preds r' r NT Ir' Ir).
      unfold tie. rewrite Cr, Cr', Z.eqb_refl. exact T. }
    now rewrite EQ.
Qed.

Lemma order_irrelevant_without_ties_witness :
  exists out,
    preds_from_torch_results
      [[fl 5 10; fl 5 10; fl 2 10; fl 2 10; fl 90 100; fl 0 1];
       [fl 6 10; fl 5 10; fl 2 10; fl 2 10; fl 95 100; fl 0 1]] 1 = Ok out /\
    preds_from_torch_results
      [[fl 6 10; fl 5 10; fl 2 10; fl 2 10; fl 95 100; fl 0 1];
       [fl 5 10; fl 5 10; fl 2 10; fl 2 10; fl 90 100; fl 0 1]] 1 = Ok out.
Proof.
  apply (order_irrelevant_without_ties
      [[fl 5 10; fl 5 10; fl 2 10; fl 2 10; fl 90 100; fl 0 1];
       [fl 6 10; fl 5 10; fl 2 10; fl 2 10; fl 95 100; fl 0 1]]
      [[fl 6 10; fl 5 10; fl 2 10; fl 2 10; fl 95 100; fl 0 1];
       [fl 5 10; fl 5 10; fl 2 10; fl 2 10; fl 90 100; fl 0 1]] 1);
    [ reflexivity | reflexivity | apply perm_swap ].
Defined.

(** ** The first faulty row *)

Lemma first_loop_stops (keys : list Z) (pre post : list row) (r : row) :
  NoDup keys ->
  Forall (fun r => exists k, class_id r = Some k /\ In k keys) pre ->
  (forall k, class_id r = Some k -> ~ In k keys) ->
  forall g : Z -> list row,
    for_each append_pred (pre ++ r :: post) (tab keys (fun c => VList (g c))) =
    Raise (match r with [] => ValueError | _ => KeyError end).
Proof.
  intros ND F Bad. induction F as [|x pre (k & C & I) _ IH]; intros g.
  - destruct r as [|a r]; [ reflexivity | ].
    simpl app. cbn [for_each].
    destruct (class_id (a :: r)) as [k|] eqn:C.
    + destruct (class_id_unpack _ _ C) as [U Fk].
      unfold append_pred, dict_getitem. rewrite U. cbn [bind snd fst].
      rewrite Fk. now rewrite (dict_get_tab_none _ _ _ (Bad k eq_refl)).
    + unfold append_pred, dict_getitem, unpack. cbn [bind snd fst].
      unfold class_id in C. now rewrite C.
  - cbn [for_each app]. rewrite (append_pred_tab _ g _ _ ND C I). cbn [bind].
    apply IH.
Qed.

Lemma first_faulty_row_error (pre post : list row) (r : row) (n : Z) :
  forallb (class_in_range n) pre = true ->
  class_in_range n r = false ->
  preds_from_torch_results (pre ++ r :: post) n =
  Raise (match r with [] => ValueError | _ => KeyError end).
Proof.
  intros C Bad. unfold preds_from_torch_results, init_dict.
  change (map (fun c => (c, VList [sentinel])) (range n))
    with (tab (range n) (fun c => VList ((fun _ => [sentinel]) c))).
  rewrite (first_loop_stops (range n) pre post r (NoDup_range _)
             (classes_in_keys _ _ C)); [ reflexivity | ].
  intros k Ck Ik. apply in_range in Ik.
  apply not_true_iff_false in Bad. apply Bad.
  apply class_in_range_spec. now exists k.
Qed.

(** X18.  The first row that has no class of the range decides the
    outcome, whatever follows it: [ValueError] when this row has no field,
    [KeyError] otherwise. *)
Theorem first_faulty_row_decides (pre post : list row) (r : row)
    (n_classes : Z) :
  forallb (class_in_range n_classes) pre = true ->
  class_in_range n_classes r = false ->
  preds_from_torch_results (pre ++ r :: post) n_classes =
  Raise (match r with [] => ValueError | _ => KeyError end).
Proof. exact (first_faulty_row_error pre post r n_classes). Qed.

Lemma first_faulty_row_decides_witness :
  preds_from_torch_results
    [[fl 5 10; fl 9 10; fl 0 1]; [fl 5 10; fl 9 10; fl 3 2]; []] 2
  = Raise KeyError /\
  preds_from_torch_results
    [[fl 5 10; fl 9 10; fl 0 1]; []; [fl 5 10; fl 9 10; fl 7 1]] 2
  = Raise ValueError.
Proof.
  split.
  - apply (first_faulty_row_decides [[fl 5 10; fl 9 10; fl 0 1]] [[]]
             [fl 5 10; fl 9 10; fl 3 2] 2); reflexivity.
  - apply (first_faulty_row_decides [[fl 5 10; fl 9 10; fl 0 1]]
             [[fl 5 10; fl 9 10; fl 7 1]] [] 2); reflexivity.
Defined.

(** X19.  With [n_classes <= 0] the dictionary has no key: the empty input
    gives the empty list and every other input raises at its first row. *)
Theorem no_class_no_entry (n_classes : Z) :
  (n_classes <= 0)%Z ->
  preds_from_torch_results [] n_classes = Ok [] /\
  forall (r : row) (rest : list row),
    preds_from_torch_results (r :: rest) n_classes =
    Raise (match r with [] => ValueError | _ => KeyError end).
Proof.
  intros N.
  assert (E : range n_classes = []).
  { unfold range. replace (Z.to_nat n_classes) with 0%nat by lia. reflexivity. }
  split.
  - unfold preds_from_torch_results, init_dict. now rewrite E.
  - intros r rest. unfold preds_from_torch_results, init_dict. rewrite E.
    change (map (fun c => (c, VList [sentinel])) [])
      with (tab [] (fun c => VList ((fun _ => [sentinel]) c))).
    rewrite (first_loop_stops [] [] rest r (NoDup_nil _) (Forall_nil _));
      [ reflexivity | ].
    intros k _ [].
Qed.

Lemma no_class_no_entry_witness :
  preds_from_torch_results [] 0 = Ok [] /\
  preds_from_torch_results
    [[fl 5 10; fl 5 10; fl 2 10; fl 2 10; fl 9 10; fl 0 1]] (-2) = Raise KeyError.
Proof.
  split.
  - apply (no_class_no_entry 0). lia.
  - apply (no_class_no_entry (-2)). lia.
Defined.

(** X20.  After the first loop the list of each class holds the sentinel
    followed by the predictions of the class in input order, and the keys
    are still [0, ..., n_classes - 1] in order. *)
Theorem first_loop_partitions (preds : list row) (n_classes : Z) :
  forallb (class_in_range n_classes) preds = true ->
  for_each append_pred preds (init_dict n_classes) =
  Ok (map (fun c => (c, VList (sentinel :: bucket c preds))) (range n_classes)).
Proof.
  intros C. unfold init_dict.
  change (map (fun c => (c, VList [sentinel])) (range n_classes))
    with (tab (range n_classes) (fun c => VList ((fun _ => [sentinel]) c))).
  exact (first_loop_ok (range n_classes) preds (NoDup_range _)
           (classes_in_keys _ _ C) (fun _ => [sentinel])).
Qed.

Lemma first_loop_partitions_witness :
  for_each append_pred
    [[fl 1 10; fl 9 10; fl 1 1]; [fl 2 10; fl 8 10; fl 0 1];
     [fl 3 10; fl 7 10; fl 1 1]] (init_dict 2) =
  Ok [(0%Z, VList [sentinel; [fl 2 10; fl 8 10]]);
      (1%Z, VList [sentinel; [fl 1 10; fl 9 10]; [fl 3 10; fl 7 10]])].
Proof.
  apply (first_loop_partitions
           [[fl 1 10; fl 9 10; fl 1 1]; [fl 2 10; fl 8 10; fl 0 1];
            [fl 3 10; fl 7 10; fl 1 1]] 2). reflexivity.
Defined.

(** ** The sort *)

Lemma map_snd_dec (rows : list row) : map snd (map dec rows) = rows.
Proof. rewrite map_map. apply map_id. Qed.

Lemma sorted_keys (ds : list (pyfloat * row)) :
  (forall e, In e ds -> fst e = conf_of (snd e)) ->
  StronglySorted key_le ds ->
  StronglySorted (fun a b => fle (conf_of a) (conf_of b) = true) (map snd ds).
Proof.
  intros K S. induction S as [|e ds S IH F]; simpl; [ constructor | ].
  constructor.
  - apply IH. intros e' He'. apply K. now right.
  - apply Forall_forall. intros b Hb. apply in_map_iff in Hb.
    destruct Hb as (e' & <- & He'). rewrite Forall_forall in F.
    specialize (F e' He'). unfold key_le in F.
    now rewrite (K e (or_introl eq_refl)), (K e' (or_intror He')) in F.
Qed.

Lemma filter_map_snd (v : pyfloat) (ds : list (pyfloat * row)) :
  (forall e, In e ds -> fst e = conf_of (snd e)) ->
  filter (fun d => feq (conf_of d) v) (map snd ds) =
  map snd (filter (fun e => feq (fst e) v) ds).
Proof.
  induction ds as [|e ds IH]; intros K; [ reflexivity | ].
  simpl. rewrite <- (K e (or_introl eq_refl)).
  rewrite IH by (intros e' He'; apply K; now right).
  now destruct (feq (fst e) v).
Qed.

Lemma dec_key (rows : list row) (e : pyfloat * row) :
  In e (map dec rows) -> fst e = conf_of (snd e).
Proof. rewrite in_map_iff. now intros (r & <- & _). Qed.

(** X21.  Sorting the list of a class raises [IndexError] when one of its
    predictions has no field.  Otherwise it returns the same predictions in
    ascending order of their last field, and predictions with equal last
    fields keep their order. *)
Theorem sorted_by_confidence (rows : list row) :
  (Exists (fun r => r = []) rows -> sorted rows = Raise IndexError) /\
  (Forall (fun r => r <> []) rows ->
   exists s,
     sorted rows = Ok s /\ Permutation rows s /\
     StronglySorted (fun a b => fle (conf_of a) (conf_of b) = true) s /\
     forall v, filter (fun d => feq (conf_of d) v) s =
               filter (fun d => feq (conf_of d) v) rows).
Proof.
  split.
  - intros EX. unfold sorted. now rewrite (decorate_index_error rows EX).
  - intros F. eexists. split; [ exact (sorted_ok rows F) | ].
    destruct (insertion_sort_stable (map dec rows)) as (P & S & K).
    assert (KS : forall e, In e (fold_right insert [] (map dec rows)) ->
                           fst e = conf_of (snd e)).
    { intros e He. apply (dec_key rows). now apply in_sorted. }
    split; [ | split ].
    + rewrite <- (map_snd_dec rows) at 1. now apply Permutation_map.
    + now apply sorted_keys.
    + intros v. rewrite (filter_map_snd v _ KS), K.
      rewrite <- (filter_map_snd v _ (dec_key rows)). now rewrite map_snd_dec.
Qed.

Lemma sorted_by_confidence_witness :
  sorted [[fl 1 10; fl 9 10]; []] = Raise IndexError /\
  sorted [[fl 1 10; fl 9 10]; [fl 2 10; fl 5 10]; [fl 3 10; fl 9 10]] =
  Ok [[fl 2 10; fl 5 10]; [fl 1 10; fl 9 10]; [fl 3 10; fl 9 10]].
Proof.
  split.
  - apply (proj1 (sorted_by_confidence [[fl 1 10; fl 9 10]; []])).
    apply Exists_cons_tl. now apply Exists_cons_hd.
  - destruct (proj2 (sorted_by_confidence
        [[fl 1 10; fl 9 10]; [fl 2 10; fl 5 10]; [fl 3 10; fl 9 10]]))
      as (s & E & _).
    + repeat constructor; discriminate.
    + rewrite E. vm_compute in E. injection E as <-. reflexivity.
Defined.

(** ** When the reducer returns *)

Lemma first_failure (A : Type) (f : A -> bool) (l : list A) :
  forallb f l = false ->
  exists pre r post, l = pre ++ r :: post /\ forallb f pre = true /\ f r = false.
Proof.
  induction l as [|a l IH]; [ discriminate | ].
  simpl. destruct (f a) eqn:Fa.
  - intros H. destruct (IH H) as (pre & r & post & -> & P & R).
    exists (a :: pre), r, post. simpl. rewrite Fa. now repeat split.
  - intros _. exists [], a, l. now repeat split.
Qed.

Lemma one_field_index_error (preds : list row) (n : Z) :
  forallb (class_in_range n) preds = true ->
  existsb (fun r => Nat.eqb (length r) 1) preds = true ->
  preds_from_torch_results preds n = Raise IndexError.
Proof.
  intros C One. unfold preds_from_torch_results, init_dict.
  change (map (fun c => (c, VList [sentinel])) (range n))
    with (tab (range n) (fun c => VList ((fun _ => [sentinel]) c))).
  rewrite (first_loop_ok (range n) preds (NoDup_range n) (classes_in_keys _ _ C)).
  cbn [bind].
  apply (second_loop_index_error (range n) (fun k => sentinel :: bucket k preds)
           (NoDup_range n) (range n) (NoDup_range n) (incl_refl _)).
  - intros k _. discriminate.
  - apply existsb_exists in One. destruct One as (r & Ir & Lr).
    apply Nat.eqb_eq in Lr. rewrite forallb_forall in C.
    destruct (proj1 (class_in_range_spec _ r) (C r Ir)) as (k & Ck & Rk).
    apply Exists_exists. exists k. split; [ now apply in_range | ].
    apply Exists_cons_tl. apply Exists_exists. exists (removelast r).
    split; [ now apply in_bucket | ].
    destruct r as [|a [|b r]]; try discriminate. reflexivity.
  - reflexivity.
Qed.

(** X22.  The reducer returns a result exactly when every row has two
    fields at least and, as its last field, a class of the range;
    otherwise it raises [ValueError], [KeyError] or [IndexError]. *)
Theorem returns_iff_rows_accepted (preds : list row) (n_classes : Z) :
  ((exists out, preds_from_torch_results preds n_classes = Ok out) <->
   forallb (fun r => class_in_range n_classes r && Nat.leb 2 (length r)) preds
     = true) /\
  (forall e, preds_from_torch_results preds n_classes = Raise e ->
             e = ValueError \/ e = KeyError \/ e = IndexError).
Proof.
  assert (Bad : forallb (fun r => class_in_range n_classes r && Nat.leb 2 (length r))
                  preds = false ->
                exists e, preds_from_torch_results preds n_classes = Raise e /\
                          (e = ValueError \/ e = KeyError \/ e = IndexError)).
  { intros F.
    destruct (forallb (class_in_range n_classes) preds) eqn:C.
    - exists IndexError. split; [ | now right; right ].
      apply one_field_index_error; [ exact C | ].
      destruct (first_failure _ _ _ F) as (pre & r & post & -> & _ & R).
      rewrite forallb_forall in C.
      assert (Cr : class_in_range n_classes r = true).
      { apply C. apply in_or_app. right. now left. }
      rewrite Cr in R. simpl in R.
      apply existsb_exists. exists r.
      split; [ apply in_or_app; right; now left | ].
      destruct r as [|a [|b r]]; try discriminate; reflexivity.
    - destruct (first_failure _ _ _ C) as (pre & r & post & -> & P & R).
      rewrite (first_faulty_row_error pre post r n_classes P R).
      destruct r; eexists; (split; [ reflexivity | ]); auto. }
  split; [ split | ].
  - intros (out & E).
    destruct (forallb (fun r => class_in_range n_classes r && Nat.leb 2 (length r))
                preds) eqn:F; [ reflexivity | ].
    destruct (Bad eq_refl) as (e & Ee & _). congruence.
  - intros F. eexists. exact (reducer_table preds n_classes (accepted_of_bool _ _ F)).
  - intros e E.
    destruct (forallb (fun r => class_in_range n_classes r && Nat.leb 2 (length r))
                preds) eqn:F.
    + rewrite (reducer_table preds n_classes (accepted_of_bool _ _ F)) in E.
      discriminate.
    + destruct (Bad eq_refl) as (e' & Ee & Ke). congruence.
Qed.

Lemma returns_iff_rows_accepted_witness :
  exists out,
    preds_from_torch_results
      [[fl 5 10; fl 5 10; fl 2 10; fl 2 10; fl 9 10; fl 1 1];
       [fl 5 10; fl 9 10; fl 0 1]] 2 = Ok out.
Proof.
  apply (proj1 (returns_iff_rows_accepted
      [[fl 5 10; fl 5 10; fl 2 10; fl 2 10; fl 9 10; fl 1 1];
       [fl 5 10; fl 9 10; fl 0 1]] 2)).
  reflexivity.
Defined.

End Reducer.

(** * Bounding boxes *)

Module Box.

Lemma ltb_lt (p r : Q) : negb (Qle_bool r p) = true <-> p < r.
Proof.
  rewrite negb_true_iff, <- not_true_iff_false, Qle_bool_iff.
  split; [ apply Qnot_le_lt | apply Qlt_not_le ].
Qed.

Lemma ltb_ge (p r : Q) : negb (Qle_bool r p) = false <-> r <= p.
Proof. rewrite negb_false_iff. apply Qle_bool_iff. Qed.

(** A box built from a prediction that carries a detection. *)
Lemma create_present_inv (p : Z * option (list Q)) (A : BBox) :
  create_corners p = Ok A -> truthy (snd p) = true ->
  exists c vx vy vw vh vc,
    p = present c vx vy vw vh vc /\
    A = mkBBox c (Some [vx; vy; vw; vh; vc])
          (ANum vx) (ANum vy) (ANum vw) (ANum vh) (ANum vc)
          (ANum (vx - vw / 2)) (ANum (vx + vw / 2))
          (ANum (vy - vh / 2)) (ANum (vy + vh / 2)).
Proof.
  destruct p as [c o]. unfold create_corners. simpl. intros H T. rewrite T in H.
  destruct o as [[|vx [|vy [|vw [|vh [|vc [|? ?]]]]]]|]; try discriminate.
  inversion H. now exists c, vx, vy, vw, vh, vc.
Qed.

(** A box built from a prediction that carries none. *)
Lemma create_absent_inv (p : Z * option (list Q)) (A : BBox) :
  create_corners p = Ok A -> truthy (snd p) = false ->
  A = mkBBox (fst p) (snd p) ANone ANone ANone ANone ANone
        ATupleNone ATupleNone ATupleNone ATupleNone.
Proof.
  destruct p as [c o]. unfold create_corners. simpl. intros H T. rewrite T in H.
  now inversion H.
Qed.

Lemma built_truthy (p : Z * option (list Q)) (A : BBox) :
  create_corners p = Ok A -> xywhc A = snd p.
Proof.
  intros H. destruct (truthy (snd p)) eqn:T.
  - destruct (create_present_inv p _ H T) as (c & vx & vy & vw & vh & vc & -> & ->).
    reflexivity.
  - rewrite (create_absent_inv p _ H T). reflexivity.
Qed.

Ltac present_boxes :=
  repeat match goal with
  | H : create_corners ?p = Ok ?A, T : truthy (snd ?p) = true |- _ =>
      let c := fresh "c" in
      let vx := fresh "vx" in let vy := fresh "vy" in
      let vw := fresh "vw" in let vh := fresh "vh" in let vc := fresh "vc" in
      destruct (create_present_inv p _ H T)
        as (c & vx & vy & vw & vh & vc & -> & ->); clear H T
  end.

Ltac absent_boxes :=
  repeat match goal with
  | H : create_corners ?p = Ok ?A, T : truthy (snd ?p) = false |- _ =>
      rewrite (create_absent_inv p _ H T) in *; clear H
  end.

(** C5.  [is_overlapping] is [False] as soon as one of the two boxes is built
    from a prediction without detection; for two boxes with a detection it
    is [True] exactly when the four strict inequalities between their
    corners hold, so boxes that share only an edge or a corner do not
    overlap. *)
Theorem is_overlapping_iff_strict (pA pB : Z * option (list Q)) (A B : BBox) :
  create_corners pA = Ok A -> create_corners pB = Ok B ->
  (truthy (snd pA) = false \/ truthy (snd pB) = false ->
   is_overlapping A B = Ok false) /\
  (truthy (snd pA) = true -> truthy (snd pB) = true ->
   exists ax1 ay1 ax2 ay2 bx1 by1 bx2 by2 o,
     x1 A = ANum ax1 /\ y1 A = ANum ay1 /\ x2 A = ANum ax2 /\ y2 A = ANum ay2 /\
     x1 B = ANum bx1 /\ y1 B = ANum by1 /\ x2 B = ANum bx2 /\ y2 B = ANum by2 /\
     is_overlapping A B = Ok o /\
     (o = true <-> ax1 < bx2 /\ ay1 < by2 /\ bx1 < ax2 /\ by1 < ay2) /\
     (ax2 == bx1 \/ ay2 == by1 \/ bx2 == ax1 \/ by2 == ay1 -> o = false)).
Proof.
  intros HA HB. split.
  - intros T. unfold is_overlapping.
    rewrite (built_truthy _ _ HA), (built_truthy _ _ HB).
    destruct T as [-> | ->]; [ reflexivity | now rewrite andb_false_r ].
  - intros TA TB. present_boxes.
    exists (vx0 - vw0 / 2), (vy0 - vh0 / 2), (vx0 + vw0 / 2), (vy0 + vh0 / 2),
           (vx - vw / 2), (vy - vh / 2), (vx + vw / 2), (vy + vh / 2).
    exists (negb (Qle_bool (vx + vw / 2) (vx0 - vw0 / 2)) &&
            (negb (Qle_bool (vy + vh / 2) (vy0 - vh0 / 2)) &&
             (negb (Qle_bool (vx0 + vw0 / 2) (vx - vw / 2)) &&
              negb (Qle_bool (vy0 + vh0 / 2) (vy - vh / 2))))).
    repeat (split; [ reflexivity | ]).
    split.
    { unfold is_overlapping, pyand, bind, attr_lt. cbn [truthy xywhc andb x1 x2 y1 y2].
      repeat match goal with
      | |- context [negb (Qle_bool ?r ?p)] => destruct (negb (Qle_bool r p))
      end; reflexivity. }
    match goal with
    | |- ?P /\ _ => assert (I : P)
    end.
    { rewrite !andb_true_iff, !ltb_lt. tauto. }
    split; [ exact I | ].
    intros Touch. apply not_true_is_false. intros O. apply I in O. lra.
Qed.

Lemma pymax_num (a b : Q) : pymax (ANum a) (ANum b) = Ok (ANum (qmax a b)).
Proof. unfold pymax, qmax, attr_lt, bind. now destruct (negb (Qle_bool b a)). Qed.

Lemma pymin_num (a b : Q) : pymin (ANum a) (ANum b) = Ok (ANum (qmin a b)).
Proof. unfold pymin, qmin, attr_lt, bind. now destruct (negb (Qle_bool a b)). Qed.

Lemma qmax_Qmax (a b : Q) : qmax a b == Qmax a b.
Proof.
  unfold qmax. destruct (negb (Qle_bool b a)) eqn:e.
  - apply ltb_lt in e. symmetry. apply Q.max_r. lra.
  - apply ltb_ge in e. symmetry. now apply Q.max_l.
Qed.

Lemma qmin_Qmin (a b : Q) : qmin a b == Qmin a b.
Proof.
  unfold qmin. destruct (negb (Qle_bool a b)) eqn:e.
  - apply ltb_lt in e. symmetry. apply Q.min_r. lra.
  - apply ltb_ge in e. symmetry. now apply Q.min_l.
Qed.

Lemma qmax_comm (a b : Q) : qmax a b == qmax b a.
Proof. rewrite !qmax_Qmax. apply Q.max_comm. Qed.

Lemma qmin_comm (a b : Q) : qmin a b == qmin b a.
Proof. rewrite !qmin_Qmin. apply Q.min_comm. Qed.

(** The area of the intersection corners of two boxes with numeric
    corners. *)
Lemma intersection_num (A B : BBox) (ax1 ay1 ax2 ay2 bx1 by1 bx2 by2 : Q) :
  x1 A = ANum ax1 -> y1 A = ANum ay1 -> x2 A = ANum ax2 -> y2 A = ANum ay2 ->
  x1 B = ANum bx1 -> y1 B = ANum by1 -> x2 B = ANum bx2 -> y2 B = ANum by2 ->
  intersection A B =
  Ok (ANum ((qmin ax2 bx2 - qmax ax1 bx1) * (qmin ay2 by2 - qmax ay1 by1))).
Proof.
  intros. unfold intersection.
  repeat match goal with H : _ = ANum _ |- _ => rewrite H; clear H end.
  now rewrite !pymax_num, !pymin_num.
Qed.

Lemma is_overlapping_iff_strict_witness :
  exists A B,
    create_corners (present 0 (2#10) (5#10) (4#10) (2#10) 1) = Ok A /\
    create_corners (present 1 (6#10) (5#10) (4#10) (2#10) 1) = Ok B /\
    is_overlapping A B = Ok false.
Proof.
  do 2 eexists. split; [ reflexivity | split; [ reflexivity | ] ].
  destruct (is_overlapping_iff_strict
              (present 0 (2#10) (5#10) (4#10) (2#10) 1)
              (present 1 (6#10) (5#10) (4#10) (2#10) 1) _ _ eq_refl eq_refl)
    as [_ P].
  destruct (P eq_refl eq_refl)
    as (ax1 & ay1 & ax2 & ay2 & bx1 & by1 & bx2 & by2 & o &
        E1 & E2 & E3 & E4 & E5 & E6 & E7 & E8 & O & _ & TOUCH).
  rewrite O. f_equal. apply TOUCH. left.
  injection E3 as <-. injection E5 as <-. vm_compute. reflexivity.
Defined.

(** For two boxes built from detections, [is_overlapping] returns the
    conjunction of the four comparisons. *)
Lemma is_overlapping_present (cA cB : Z) (xA yA wA hA sA xB yB wB hB sB : Q)
    (A B : BBox) :
  create_corners (present cA xA yA wA hA sA) = Ok A ->
  create_corners (present cB xB yB wB hB sB) = Ok B ->
  is_overlapping A B =
  Ok (negb (Qle_bool (xB + wB / 2) (xA - wA / 2)) &&
      (negb (Qle_bool (yB + hB / 2) (yA - hA / 2)) &&
       (negb (Qle_bool (xA + wA / 2) (xB - wB / 2)) &&
        negb (Qle_bool (yA + hA / 2) (yB - hB / 2))))).
Proof.
  intros HA HB. injection HA as <-. injection HB as <-.
  unfold is_overlapping, pyand, bind, attr_lt.
  cbn [truthy xywhc andb x1 x2 y1 y2].
  repeat match goal with
  | |- context [negb (Qle_bool ?r ?p)] => destruct (negb (Qle_bool r p))
  end; reflexivity.
Qed.

(** C6, as stated, fails: two boxes apart along both axes do not overlap and
    the area of their intersection corners is positive. *)
Lemma intersection_positive_without_overlap :
  exists A B v,
    create_corners (present 0 (1#10) (1#10) (2#10) (2#10) 1) = Ok A /\
    create_corners (present 0 (9#10) (9#10) (2#10) (2#10) 1) = Ok B /\
    is_overlapping A B = Ok false /\
    intersection A B = Ok (ANum v) /\ 0 < v.
Proof.
  do 3 eexists. repeat split; try reflexivity.
Qed.

Lemma rectangular_area_num (a1 a2 b1 b2 : Q) :
  rectangular_area (ANum a1) (ANum a2) (ANum b1) (ANum b2) =
  Ok (ANum ((a2 - a1) * (b2 - b1))).
Proof. reflexivity. Qed.

Lemma attr_div_equiv (p p' r r' : Q) :
  p == p' -> r == r' ->
  res_equiv (attr_div (ANum p) (ANum r)) (attr_div (ANum p') (ANum r')).
Proof.
  intros Ep Er. unfold attr_div. rewrite Er.
  destruct (Qeq_bool r' 0); simpl; [ reflexivity | now rewrite Ep, Er ].
Qed.

(** On two boxes built from detections [niou] is symmetric. *)
Lemma niou_present_sym (cA cB : Z) (xA yA wA hA sA xB yB wB hB sB : Q)
    (A B : BBox) :
  create_corners (present cA xA yA wA hA sA) = Ok A ->
  create_corners (present cB xB yB wB hB sB) = Ok B ->
  res_equiv (niou A B) (niou B A).
Proof.
  intros HA HB. unfold niou.
  rewrite (is_overlapping_present _ _ _ _ _ _ _ _ _ _ _ _ _ _ HA HB),
    (is_overlapping_present _ _ _ _ _ _ _ _ _ _ _ _ _ _ HB HA).
  match goal with
  | |- context [Ok (?a && (?b && (?c && ?d)))] =>
      replace (c && (d && (a && b))) with (a && (b && (c && d)))
        by (destruct a, b, c, d; reflexivity);
      destruct (a && (b && (c && d)))
  end; cbn [bind]; [ | reflexivity ].
  injection HA as <-. injection HB as <-.
  erewrite !intersection_num by reflexivity.
  cbn [bind x1 x2 y1 y2]. rewrite !rectangular_area_num. cbn [bind].
  rewrite !pymin_num. cbn [bind].
  apply attr_div_equiv.
  - now rewrite (qmin_comm (xA + wA / 2)), (qmin_comm (yA + hA / 2)),
      (qmax_comm (xA - wA / 2)), (qmax_comm (yA - hA / 2)).
  - apply qmin_comm.
Qed.

(** C7, as stated, fails: for a box of zero width inside another one
    [niou] returns no number in either order, the division by the smaller
    area raises. *)
Lemma niou_raises_in_both_orders :
  exists A B,
    create_corners (present 0 (1#2) (1#2) 0 (1#4) 1) = Ok A /\
    create_corners (present 0 (1#2) (1#2) (1#2) (1#2) 1) = Ok B /\
    niou A B = Raise ZeroDivisionError /\
    niou B A = Raise ZeroDivisionError.
Proof. do 2 eexists. repeat split. Qed.

(** C7, amended.  For two boxes built from predictions, [niou(A, B)] and
    [niou(B, A)] have the same outcome: the same number, or the same
    exception (the division raises when the smaller area is zero). *)
Theorem niou_symmetric (pA pB : Z * option (list Q)) (A B : BBox) :
  create_corners pA = Ok A -> create_corners pB = Ok B ->
  res_equiv (niou A B) (niou B A).
Proof.
  intros HA HB.
  destruct (truthy (snd pA)) eqn:TA, (truthy (snd pB)) eqn:TB.
  - destruct (create_present_inv pA _ HA TA) as (cA & xA & yA & wA & hA & sA & -> & _).
    destruct (create_present_inv pB _ HB TB) as (cB & xB & yB & wB & hB & sB & -> & _).
    exact (niou_present_sym _ _ _ _ _ _ _ _ _ _ _ _ _ _ HA HB).
  - unfold niou, is_overlapping.
    rewrite (built_truthy _ _ HA), (built_truthy _ _ HB), TA, TB. reflexivity.
  - unfold niou, is_overlapping.
    rewrite (built_truthy _ _ HA), (built_truthy _ _ HB), TA, TB. reflexivity.
  - unfold niou, is_overlapping.
    rewrite (built_truthy _ _ HA), (built_truthy _ _ HB), TA, TB. reflexivity.
Qed.

Lemma niou_symmetric_witness :
  exists A B,
    create_corners (present 0 (5#10) (5#10) (2#10) (2#10) 1) = Ok A /\
    create_corners (present 1 (6#10) (5#10) (3#10) (1#10) 1) = Ok B /\
    res_equiv (niou A B) (niou B A).
Proof.
  do 2 eexists. split; [ reflexivity | split; [ reflexivity | ] ].
  apply (niou_symmetric (present 0 (5#10) (5#10) (2#10) (2#10) 1)
           (present 1 (6#10) (5#10) (3#10) (1#10) 1)); reflexivity.
Defined.

(** C8.  A box built from a detection with [w >= 0] and [h >= 0] has the
    corners [x1 = x - w/2 <= x2 = x + w/2] and
    [y1 = y - h/2 <= y2 = y + h/2]. *)
Theorem corners_ordered (c : Z) (vx vy vw vh vc : Q) (A : BBox) :
  create_corners (present c vx vy vw vh vc) = Ok A ->
  0 <= vw -> 0 <= vh ->
  x1 A = ANum (vx - vw / 2) /\ x2 A = ANum (vx + vw / 2) /\
  y1 A = ANum (vy - vh / 2) /\ y2 A = ANum (vy + vh / 2) /\
  vx - vw / 2 <= vx + vw / 2 /\ vy - vh / 2 <= vy + vh / 2.
Proof.
  intros H Hw Hh. injection H as <-. cbn [x1 x2 y1 y2].
  assert (Pw : 0 <= vw / 2) by (apply Qmult_le_0_compat; [ assumption | discriminate ]).
  assert (Ph : 0 <= vh / 2) by (apply Qmult_le_0_compat; [ assumption | discriminate ]).
  repeat split; lra.
Qed.

Lemma corners_ordered_witness :
  exists A,
    create_corners (present 2 (5#10) (4#10) (2#10) 0 (9#10)) = Ok A /\
    x1 A = ANum ((5#10) - (2#10) / 2) /\ x2 A = ANum ((5#10) + (2#10) / 2).
Proof.
  eexists. split; [ reflexivity | ].
  destruct (corners_ordered 2 (5#10) (4#10) (2#10) 0 (9#10) _ eq_refl)
    as (E1 & E2 & _); [ lra | lra | ].
  split; [ exact E1 | exact E2 ].
Defined.

(** C9, on the code.  A box built from a prediction without detection
    stores [None] in [x], [y], [w], [h] and [conf], and the 1-tuple
    [(None,)] in the four corners: the corners are not the marker of the
    other fields.  No arithmetic is involved. *)
Theorem absent_box_fields (c : Z) :
  create_corners (absent c) =
  Ok (mkBBox c None ANone ANone ANone ANone ANone
        ATupleNone ATupleNone ATupleNone ATupleNone) /\
  ATupleNone <> ANone.
Proof. split; [ reflexivity | discriminate ]. Qed.

(** On two boxes without detection the corners are both [(None,)]: [max]
    and [min] return one of them and the subtraction of
    [rectangular_area] raises. *)
Lemma absent_corners_compare :
  pymax ATupleNone ATupleNone = Ok ATupleNone /\
  pymin ATupleNone ATupleNone = Ok ATupleNone /\
  rectangular_area ATupleNone ATupleNone ATupleNone ATupleNone = Raise TypeError.
Proof. repeat split. Qed.

(** C10.  When one of the two boxes at least is built from a prediction
    without detection, [intersection] raises [TypeError], while
    [is_overlapping] returns [False] and [niou] returns [0].  With exactly
    one such box the first [max] already raises. *)
Theorem intersection_absent_raises (pA pB : Z * option (list Q)) (A B : BBox) :
  create_corners pA = Ok A -> create_corners pB = Ok B ->
  truthy (snd pA) = false \/ truthy (snd pB) = false ->
  intersection A B = Raise TypeError /\
  is_overlapping A B = Ok false /\
  niou A B = Ok (ANum 0) /\
  (truthy (snd pA) <> truthy (snd pB) ->
   pymax (x1 A) (x1 B) = Raise TypeError).
Proof.
  intros HA HB T.
  assert (O : is_overlapping A B = Ok false).
  { unfold is_overlapping. rewrite (built_truthy _ _ HA), (built_truthy _ _ HB).
    destruct T as [-> | ->]; [ reflexivity | now rewrite andb_false_r ]. }
  split; [ | split; [ exact O | split; [ unfold niou; now rewrite O | ] ] ].
  - destruct (truthy (snd pA)) eqn:TA, (truthy (snd pB)) eqn:TB;
      try (destruct T; discriminate); present_boxes; absent_boxes; reflexivity.
  - destruct (truthy (snd pA)) eqn:TA, (truthy (snd pB)) eqn:TB;
      try (destruct T; discriminate); intros N; try congruence;
      present_boxes; absent_boxes; reflexivity.
Qed.

Lemma intersection_absent_raises_witness :
  exists A B,
    create_corners (present 0 (5#10) (5#10) (2#10) (2#10) 1) = Ok A /\
    create_corners (absent 1) = Ok B /\
    intersection A B = Raise TypeError /\ intersection B A = Raise TypeError /\
    intersection B B = Raise TypeError.
Proof.
  do 2 eexists. split; [ reflexivity | split; [ reflexivity | ] ].
  split; [ | split ].
  - apply (intersection_absent_raises
             (present 0 (5#10) (5#10) (2#10) (2#10) 1) (absent 1));
      try reflexivity. now right.
  - apply (intersection_absent_raises
             (absent 1) (present 0 (5#10) (5#10) (2#10) (2#10) 1));
      try reflexivity. now left.
  - apply (intersection_absent_raises (absent 1) (absent 1));
      try reflexivity. now left.
Defined.

(** * Further properties of the boxes *)

(** The box that [create_corners] builds from a detection. *)
Lemma create_present (c : Z) (vx vy vw vh vc : Q) :
  create_corners (present c vx vy vw vh vc) =
  Ok (mkBBox c (Some [vx; vy; vw; vh; vc])
        (ANum vx) (ANum vy) (ANum vw) (ANum vh) (ANum vc)
        (ANum (vx - vw / 2)) (ANum (vx + vw / 2))
        (ANum (vy - vh / 2)) (ANum (vy + vh / 2))).
Proof. reflexivity. Qed.

(** [niou] on two boxes built from detections, in closed form. *)
Lemma niou_present (cA cB : Z) (xA yA wA hA sA xB yB wB hB sB : Q)
    (A B : BBox) :
  create_corners (present cA xA yA wA hA sA) = Ok A ->
  create_corners (present cB xB yB wB hB sB) = Ok B ->
  niou A B =
  if negb (Qle_bool (xB + wB / 2) (xA - wA / 2)) &&
     (negb (Qle_bool (yB + hB / 2) (yA - hA / 2)) &&
      (negb (Qle_bool (xA + wA / 2) (xB - wB / 2)) &&
       negb (Qle_bool (yA + hA / 2) (yB - hB / 2))))
  then
    attr_div
      (ANum ((qmin (xA + wA / 2) (xB + wB / 2) - qmax (xA - wA / 2) (xB - wB / 2)) *
             (qmin (yA + hA / 2) (yB + hB / 2) - qmax (yA - hA / 2) (yB - hB / 2))))
      (ANum (qmin ((xA + wA / 2 - (xA - wA / 2)) * (yA + hA / 2 - (yA - hA / 2)))
                  ((xB + wB / 2 - (xB - wB / 2)) * (yB + hB / 2 - (yB - hB / 2)))))
  else Ok (ANum 0).
Proof.
  intros HA HB. unfold niou.
  rewrite (is_overlapping_present _ _ _ _ _ _ _ _ _ _ _ _ _ _ HA HB).
  match goal with |- context [Ok (?a && ?b)] => destruct (a && b) end;
    cbn [bind]; [ | reflexivity ].
  injection HA as <-. injection HB as <-.
  erewrite !intersection_num by reflexivity.
  cbn [bind x1 x2 y1 y2]. rewrite !rectangular_area_num. cbn [bind].
  rewrite !pymin_num. reflexivity.
Qed.

Lemma overlap_bool_iff (a1 a2 b1 b2 c1 c2 d1 d2 : Q) :
  negb (Qle_bool a2 a1) && (negb (Qle_bool b2 b1) &&
    (negb (Qle_bool c2 c1) && negb (Qle_bool d2 d1))) = true <->
  a1 < a2 /\ b1 < b2 /\ c1 < c2 /\ d1 < d2.
Proof. rewrite !andb_true_iff, !ltb_lt. tauto. Qed.

Lemma qmax_cases (a b : Q) : (a < b /\ qmax a b = b) \/ (b <= a /\ qmax a b = a).
Proof.
  unfold qmax. destruct (negb (Qle_bool b a)) eqn:e.
  - left. split; [ now apply ltb_lt | reflexivity ].
  - right. split; [ now apply ltb_ge | reflexivity ].
Qed.

Lemma qmin_cases (a b : Q) : (b < a /\ qmin a b = b) \/ (a <= b /\ qmin a b = a).
Proof.
  unfold qmin. destruct (negb (Qle_bool a b)) eqn:e.
  - left. split; [ now apply ltb_lt | reflexivity ].
  - right. split; [ now apply ltb_ge | reflexivity ].
Qed.

(** X1.  [create_corners] raises only for a list that is neither empty nor
    of five items, and then [ValueError]; the empty list gives the same
    box as [None] does. *)
Theorem create_corners_errors (c : Z) (o : option (list Q)) :
  (create_corners (c, o) = Raise ValueError <->
   exists l, o = Some l /\ l <> [] /\ length l <> 5%nat) /\
  (forall e, create_corners (c, o) = Raise e -> e = ValueError) /\
  create_corners (c, Some []) =
  Ok (mkBBox c (Some []) ANone ANone ANone ANone ANone
        ATupleNone ATupleNone ATupleNone ATupleNone).
Proof.
  split; [ | split; [ | reflexivity ] ].
  - split.
    + intros H. destruct o as [l|]; [ | discriminate ]. exists l.
      split; [ reflexivity | ].
      destruct l as [|a [|b [|d [|e [|f [|g l]]]]]]; try discriminate;
        split; simpl; try discriminate; lia.
    + intros (l & -> & NE & L).
      destruct l as [|a [|b [|d [|e [|f [|g l]]]]]]; try reflexivity;
        [ contradiction | simpl in L; lia ].
  - intros e H. destruct o as [l|]; [ | discriminate ].
    destruct l as [|a [|b [|d [|e' [|f [|g l]]]]]]; try discriminate;
      simpl in H; congruence.
Qed.

Lemma create_corners_errors_witness :
  create_corners (3%Z, Some [1#2; 1#2; 1#4]) = Raise ValueError.
Proof.
  apply (proj1 (create_corners_errors 3 (Some [1#2; 1#2; 1#4]))).
  exists [1#2; 1#2; 1#4]. split; [ reflexivity | split; [ discriminate | ] ].
  simpl. lia.
Defined.

(** X2.  The truth value of a box tells whether its prediction carried a
    detection. *)
Theorem bool_iff_present (p : Z * option (list Q)) (A : BBox) :
  create_corners p = Ok A -> bbox_bool A = truthy (snd p).
Proof.
  intros H. destruct (truthy (snd p)) eqn:T.
  - destruct (create_present_inv p A H T) as (c & vx & vy & vw & vh & vc & _ & ->).
    reflexivity.
  - rewrite (create_absent_inv p A H T). reflexivity.
Qed.

Lemma bool_iff_present_witness :
  exists A B,
    create_corners (present 0 (1#2) (1#2) (1#4) (1#4) 1) = Ok A /\
    create_corners (absent 0) = Ok B /\
    bbox_bool A = true /\ bbox_bool B = false.
Proof.
  do 2 eexists. split; [ reflexivity | split; [ reflexivity | split ] ].
  - apply (bool_iff_present (present 0 (1#2) (1#2) (1#4) (1#4) 1)). reflexivity.
  - apply (bool_iff_present (absent 0)). reflexivity.
Defined.

(** X4.  [is_overlapping] never raises on boxes built by [create_corners],
    and it is symmetric. *)
Theorem is_overlapping_symmetric (pA pB : Z * option (list Q)) (A B : BBox) :
  create_corners pA = Ok A -> create_corners pB = Ok B ->
  exists o, is_overlapping A B = Ok o /\ is_overlapping B A = Ok o.
Proof.
  intros HA HB.
  destruct (truthy (snd pA)) eqn:TA, (truthy (snd pB)) eqn:TB.
  - destruct (create_present_inv pA A HA TA) as (cA & xA & yA & wA & hA & sA & -> & _).
    destruct (create_present_inv pB B HB TB) as (cB & xB & yB & wB & hB & sB & -> & _).
    rewrite (is_overlapping_present _ _ _ _ _ _ _ _ _ _ _ _ _ _ HA HB),
      (is_overlapping_present _ _ _ _ _ _ _ _ _ _ _ _ _ _ HB HA).
    eexists. split; [ reflexivity | ]. f_equal.
    repeat match goal with
    | |- context [negb (Qle_bool ?r ?p)] => destruct (negb (Qle_bool r p))
    end; reflexivity.
  - exists false. unfold is_overlapping.
    rewrite (built_truthy _ _ HA), (built_truthy _ _ HB), TA, TB. now split.
  - exists false. unfold is_overlapping.
    rewrite (built_truthy _ _ HA), (built_truthy _ _ HB), TA, TB. now split.
  - exists false. unfold is_overlapping.
    rewrite (built_truthy _ _ HA), (built_truthy _ _ HB), TA, TB. now split.
Qed.

Lemma is_overlapping_symmetric_witness :
  exists A B,
    create_corners (present 0 (5#10) (5#10) (2#10) (2#10) 1) = Ok A /\
    create_corners (present 1 (6#10) (5#10) (3#10) (1#10) 1) = Ok B /\
    is_overlapping A B = Ok true /\ is_overlapping B A = Ok true.
Proof.
  do 2 eexists. split; [ reflexivity | split; [ reflexivity | ] ].
  destruct (is_overlapping_symmetric
              (present 0 (5#10) (5#10) (2#10) (2#10) 1)
              (present 1 (6#10) (5#10) (3#10) (1#10) 1) _ _ eq_refl eq_refl)
    as (o & E1 & E2).
  split; [ reflexivity | ]. rewrite E2.
  vm_compute in E1. injection E1 as <-. reflexivity.
Defined.

(** X5.  [intersection(A, B)] and [intersection(B, A)] have the same
    outcome: the same number for two boxes with a detection, the same
    [TypeError] otherwise. *)
Theorem intersection_symmetric (pA pB : Z * option (list Q)) (A B : BBox) :
  create_corners pA = Ok A -> create_corners pB = Ok B ->
  res_equiv (intersection A B) (intersection B A).
Proof.
  intros HA HB.
  destruct (truthy (snd pA)) eqn:TA, (truthy (snd pB)) eqn:TB.
  - present_boxes. erewrite !intersection_num by reflexivity.
    cbn [res_equiv attr_equiv].
    now rewrite (qmin_comm (vx0 + vw0 / 2)), (qmin_comm (vy0 + vh0 / 2)),
      (qmax_comm (vx0 - vw0 / 2)), (qmax_comm (vy0 - vh0 / 2)).
  - present_boxes. absent_boxes. reflexivity.
  - present_boxes. absent_boxes. reflexivity.
  - absent_boxes. reflexivity.
Qed.

Lemma intersection_symmetric_witness :
  exists A B,
    create_corners (present 0 (5#10) (5#10) (2#10) (2#10) 1) = Ok A /\
    create_corners (present 1 (6#10) (5#10) (3#10) (1#10) 1) = Ok B /\
    res_equiv (intersection A B) (intersection B A).
Proof.
  do 2 eexists. split; [ reflexivity | split; [ reflexivity | ] ].
  apply (intersection_symmetric (present 0 (5#10) (5#10) (2#10) (2#10) 1)
           (present 1 (6#10) (5#10) (3#10) (1#10) 1)); reflexivity.
Defined.

(** The intersection corners of two overlapping boxes of non-negative width
    and height. *)
Lemma overlap_differences (a1 a2 b1 b2 : Q) :
  a1 <= a2 -> b1 <= b2 -> a1 < b2 -> b1 < a2 ->
  0 <= qmin a2 b2 - qmax a1 b1 /\
  qmin a2 b2 - qmax a1 b1 <= a2 - a1 /\
  qmin a2 b2 - qmax a1 b1 <= b2 - b1 /\
  (a1 < a2 -> b1 < b2 -> 0 < qmin a2 b2 - qmax a1 b1).
Proof.
  intros.
  destruct (qmin_cases a2 b2) as [[? ->]|[? ->]],
           (qmax_cases a1 b1) as [[? ->]|[? ->]];
    repeat split; intros; lra.
Qed.





Lemma quotient_bounds (i m : Q) :
  0 < m -> 0 <= i -> i <= m -> 0 <= i / m /\ i / m <= 1 /\ (0 < i -> 0 < i / m).
Proof.
  intros Pm Pi Le. repeat split.
  - apply Qle_shift_div_l; [ exact Pm | lra ].
  - apply Qle_shift_div_r; [ exact Pm | lra ].
  - intros P. apply Qlt_shift_div_l; [ exact Pm | lra ].
Qed.


(** X11.  On boxes built by [create_corners], with a detection or without,
    [niou] returns a number or raises [ZeroDivisionError]: it raises no
    other exception. *)
Theorem niou_number_or_zero_division (pA pB : Z * option (list Q))
    (A B : BBox) :
  create_corners pA = Ok A -> create_corners pB = Ok B ->
  (exists v, niou A B = Ok (ANum v)) \/ niou A B = Raise ZeroDivisionError.
Proof.
  intros HA HB.
  destruct (truthy (snd pA)) eqn:TA, (truthy (snd pB)) eqn:TB.
  - destruct (create_present_inv pA A HA TA) as (cA & xA & yA & wA & hA & sA & -> & _).
    destruct (create_present_inv pB B HB TB) as (cB & xB & yB & wB & hB & sB & -> & _).
    rewrite (niou_present _ _ _ _ _ _ _ _ _ _ _ _ _ _ HA HB).
    match goal with |- context [if ?o1 && ?o2 then _ else _] =>
      destruct (o1 && o2) end; [ | left; now exists 0 ].
    unfold attr_div.
    match goal with |- context [Qeq_bool ?m 0] => destruct (Qeq_bool m 0) end;
      [ now right | left; eexists; reflexivity ].
  - left. exists 0. unfold niou, is_overlapping.
    rewrite (built_truthy _ _ HA), (built_truthy _ _ HB), TA, TB. reflexivity.
  - left. exists 0. unfold niou, is_overlapping.
    rewrite (built_truthy _ _ HA), (built_truthy _ _ HB), TA, TB. reflexivity.
  - left. exists 0. unfold niou, is_overlapping.
    rewrite (built_truthy _ _ HA), (built_truthy _ _ HB), TA, TB. reflexivity.
Qed.

Lemma niou_number_or_zero_division_witness :
  exists A B,
    create_corners (present 0 (5#10) (5#10) (2#10) (2#10) 1) = Ok A /\
    create_corners (absent 1) = Ok B /\
    ((exists v, niou A B = Ok (ANum v)) \/ niou A B = Raise ZeroDivisionError).
Proof.
  do 2 eexists. split; [ reflexivity | split; [ reflexivity | ] ].
  apply (niou_number_or_zero_division
           (present 0 (5#10) (5#10) (2#10) (2#10) 1) (absent 1)); reflexivity.
Defined.

(** * Statements on the stored corners *)

Lemma has_corners_present (c : Z) (vx vy vw vh vc : Q) (A : BBox) :
  create_corners (present c vx vy vw vh vc) = Ok A ->
  has_corners A (vx - vw / 2) (vy - vh / 2) (vx + vw / 2) (vy + vh / 2).
Proof. intros H. injection H as <-. now repeat split. Qed.

Lemma is_overlapping_corners (A B : BBox)
    (ax1 ay1 ax2 ay2 bx1 by1 bx2 by2 : Q) :
  has_corners A ax1 ay1 ax2 ay2 -> has_corners B bx1 by1 bx2 by2 ->
  is_overlapping A B =
  Ok (negb (Qle_bool bx2 ax1) && (negb (Qle_bool by2 ay1) &&
        (negb (Qle_bool ax2 bx1) && negb (Qle_bool ay2 by1)))).
Proof.
  intros (TA & A1 & A2 & A3 & A4) (TB & B1 & B2 & B3 & B4).
  unfold is_overlapping. rewrite TA, TB, A1, A2, A3, A4, B1, B2, B3, B4.
  unfold pyand, bind, attr_lt. cbn [andb].
  repeat match goal with
  | |- context [negb (Qle_bool ?r ?p)] => destruct (negb (Qle_bool r p))
  end; reflexivity.
Qed.

Lemma intersection_corners (A B : BBox)
    (ax1 ay1 ax2 ay2 bx1 by1 bx2 by2 : Q) :
  has_corners A ax1 ay1 ax2 ay2 -> has_corners B bx1 by1 bx2 by2 ->
  intersection A B =
  Ok (ANum ((qmin ax2 bx2 - qmax ax1 bx1) * (qmin ay2 by2 - qmax ay1 by1))).
Proof.
  intros (_ & A1 & A2 & A3 & A4) (_ & B1 & B2 & B3 & B4).
  now apply intersection_num.
Qed.

Lemma own_area_corners (A : BBox) (a1 b1 a2 b2 : Q) :
  has_corners A a1 b1 a2 b2 ->
  rectangular_area (x1 A) (x2 A) (y1 A) (y2 A) =
  Ok (ANum ((a2 - a1) * (b2 - b1))).
Proof. intros (_ & -> & -> & -> & ->). reflexivity. Qed.

(** [niou] on two boxes with a detection, in terms of their corners. *)
Lemma niou_corners (A B : BBox) (ax1 ay1 ax2 ay2 bx1 by1 bx2 by2 : Q) :
  has_corners A ax1 ay1 ax2 ay2 -> has_corners B bx1 by1 bx2 by2 ->
  niou A B =
  if negb (Qle_bool bx2 ax1) && (negb (Qle_bool by2 ay1) &&
       (negb (Qle_bool ax2 bx1) && negb (Qle_bool ay2 by1)))
  then
    attr_div
      (ANum ((qmin ax2 bx2 - qmax ax1 bx1) * (qmin ay2 by2 - qmax ay1 by1)))
      (ANum (qmin ((ax2 - ax1) * (ay2 - ay1)) ((bx2 - bx1) * (by2 - by1))))
  else Ok (ANum 0).
Proof.
  intros HA HB. unfold niou.
  rewrite (is_overlapping_corners _ _ _ _ _ _ _ _ _ _ HA HB).
  match goal with |- context [Ok (?a && ?b)] => destruct (a && b) end;
    cbn [bind]; [ | reflexivity ].
  rewrite (intersection_corners _ _ _ _ _ _ _ _ _ _ HA HB). cbn [bind].
  rewrite (own_area_corners _ _ _ _ _ HA), (own_area_corners _ _ _ _ _ HB).
  cbn [bind]. now rewrite pymin_num.
Qed.

(** C6, amended.  For two boxes with a detection that do not overlap,
    [intersection] returns a number; along one axis at least the smaller of
    the two far corners does not exceed the greater of the two near
    corners.  The number is zero or negative unless this holds strictly
    along both axes; then it is zero or positive. *)
Theorem intersection_without_overlap (A B : BBox)
    (ax1 ay1 ax2 ay2 bx1 by1 bx2 by2 : Q) :
  has_corners A ax1 ay1 ax2 ay2 -> has_corners B bx1 by1 bx2 by2 ->
  is_overlapping A B = Ok false ->
  exists v,
    intersection A B = Ok (ANum v) /\
    (Qmin ax2 bx2 <= Qmax ax1 bx1 \/ Qmin ay2 by2 <= Qmax ay1 by1) /\
    (~ (Qmin ax2 bx2 < Qmax ax1 bx1 /\ Qmin ay2 by2 < Qmax ay1 by1) ->
     v <= 0) /\
    (Qmin ax2 bx2 < Qmax ax1 bx1 /\ Qmin ay2 by2 < Qmax ay1 by1 -> 0 <= v).
Proof.
  intros HA HB O.
  rewrite (is_overlapping_corners _ _ _ _ _ _ _ _ _ _ HA HB) in O.
  injection O as O. apply not_true_iff_false in O.
  rewrite overlap_bool_iff in O.
  eexists. split; [ exact (intersection_corners _ _ _ _ _ _ _ _ _ _ HA HB) | ].
  rewrite !qmax_Qmax, !qmin_Qmin.
  pose proof (Q.le_min_l ax2 bx2). pose proof (Q.le_min_r ax2 bx2).
  pose proof (Q.le_max_l ax1 bx1). pose proof (Q.le_max_r ax1 bx1).
  pose proof (Q.le_min_l ay2 by2). pose proof (Q.le_min_r ay2 by2).
  pose proof (Q.le_max_l ay1 by1). pose proof (Q.le_max_r ay1 by1).
  assert (S : Qmin ax2 bx2 <= Qmax ax1 bx1 \/ Qmin ay2 by2 <= Qmax ay1 by1).
  { destruct (Qlt_le_dec (Qmax ax1 bx1) (Qmin ax2 bx2)) as [Px|Px]; [ | now left ].
    destruct (Qlt_le_dec (Qmax ay1 by1) (Qmin ay2 by2)) as [Py|Py]; [ | now right ].
    exfalso. apply O. repeat split; lra. }
  revert S. generalize (Qmin ax2 bx2), (Qmax ax1 bx1), (Qmin ay2 by2), (Qmax ay1 by1).
  intros hx lx hy ly S.
  split; [ exact S | split ].
  - intros N. destruct (Qlt_le_dec hx lx), (Qlt_le_dec hy ly); try tauto; nra.
  - intros [Nx Ny]. nra.
Qed.

Lemma intersection_without_overlap_witness :
  exists A B v,
    create_corners (present 0 (1#8) (1#2) (1#4) (1#4) 1) = Ok A /\
    create_corners (present 1 (7#8) (1#2) (1#4) (1#4) 1) = Ok B /\
    intersection A B = Ok (ANum v) /\ v <= 0.
Proof.
  do 2 eexists.
  destruct (intersection_without_overlap _ _ _ _ _ _ _ _ _ _
              (has_corners_present 0 (1#8) (1#2) (1#4) (1#4) 1 _ eq_refl)
              (has_corners_present 1 (7#8) (1#2) (1#4) (1#4) 1 _ eq_refl)
              eq_refl) as (v & I & _ & N & _).
  exists v. split; [ reflexivity | split; [ reflexivity | ] ].
  split; [ exact I | ].
  apply N. intros [_ F]. vm_compute in F. discriminate.
Defined.

(** X3.  The area of a box built from a detection with [w >= 0] and
    [h >= 0], computed by [rectangular_area] from the corners of the box
    as [niou] does, is a number that is not negative. *)
Theorem area_non_negative (c : Z) (vx vy vw vh vc : Q) (A : BBox) :
  create_corners (present c vx vy vw vh vc) = Ok A ->
  0 <= vw -> 0 <= vh ->
  exists v,
    rectangular_area (x1 A) (x2 A) (y1 A) (y2 A) = Ok (ANum v) /\ 0 <= v.
Proof.
  intros H Pw Ph.
  rewrite (own_area_corners _ _ _ _ _ (has_corners_present _ _ _ _ _ _ _ H)).
  eexists. split; [ reflexivity | ].
  assert (Hw : 0 <= vw / 2) by (apply Qmult_le_0_compat; [ assumption | discriminate ]).
  assert (Hh : 0 <= vh / 2) by (apply Qmult_le_0_compat; [ assumption | discriminate ]).
  revert Hw Hh. generalize (vw / 2), (vh / 2). intros a b Hw Hh. nra.
Qed.

Lemma area_non_negative_witness :
  exists A v,
    create_corners (present 0 (1#2) (1#2) (1#4) 0 1) = Ok A /\
    rectangular_area (x1 A) (x2 A) (y1 A) (y2 A) = Ok (ANum v) /\ 0 <= v.
Proof.
  eexists.
  destruct (area_non_negative 0 (1#2) (1#2) (1#4) 0 1 _ eq_refl)
    as (v & E & V); try (vm_compute; discriminate).
  exists v. split; [ reflexivity | split; [ exact E | exact V ] ].
Defined.

(** The intersection and the areas of two overlapping boxes whose corners
    are in order. *)
Lemma overlap_operands (ax1 ay1 ax2 ay2 bx1 by1 bx2 by2 : Q) :
  ax1 <= ax2 -> ay1 <= ay2 -> bx1 <= bx2 -> by1 <= by2 ->
  ax1 < bx2 -> ay1 < by2 -> bx1 < ax2 -> by1 < ay2 ->
  let i := (qmin ax2 bx2 - qmax ax1 bx1) * (qmin ay2 by2 - qmax ay1 by1) in
  let aA := (ax2 - ax1) * (ay2 - ay1) in
  let aB := (bx2 - bx1) * (by2 - by1) in
  0 <= i /\ i <= aA /\ i <= aB /\ 0 <= aA /\ 0 <= aB.
Proof.
  intros OAx OAy OBx OBy O1 O2 O3 O4 i aA aB.
  destruct (overlap_differences ax1 ax2 bx1 bx2) as (X0 & XA & XB & _); try lra.
  destruct (overlap_differences ay1 ay2 by1 by2) as (Y0 & YA & YB & _); try lra.
  subst i aA aB. revert X0 XA XB Y0 YA YB.
  generalize (qmin ax2 bx2 - qmax ax1 bx1), (qmin ay2 by2 - qmax ay1 by1).
  intros dx dy X0 XA XB Y0 YA YB. repeat split; nra.
Qed.

(** X6.  For two overlapping boxes with a detection whose corners are in
    order ([x1 <= x2], [y1 <= y2]), [intersection] returns a number that is
    not negative and does not exceed the area that [rectangular_area]
    returns for either box. *)
Theorem intersection_of_overlapping (A B : BBox)
    (ax1 ay1 ax2 ay2 bx1 by1 bx2 by2 : Q) :
  has_corners A ax1 ay1 ax2 ay2 -> has_corners B bx1 by1 bx2 by2 ->
  ax1 <= ax2 -> ay1 <= ay2 -> bx1 <= bx2 -> by1 <= by2 ->
  is_overlapping A B = Ok true ->
  exists v aA aB,
    intersection A B = Ok (ANum v) /\
    rectangular_area (x1 A) (x2 A) (y1 A) (y2 A) = Ok (ANum aA) /\
    rectangular_area (x1 B) (x2 B) (y1 B) (y2 B) = Ok (ANum aB) /\
    0 <= v /\ v <= aA /\ v <= aB.
Proof.
  intros HA HB OAx OAy OBx OBy O.
  rewrite (is_overlapping_corners _ _ _ _ _ _ _ _ _ _ HA HB) in O.
  injection O as O. apply overlap_bool_iff in O. destruct O as (O1 & O2 & O3 & O4).
  destruct (overlap_operands ax1 ay1 ax2 ay2 bx1 by1 bx2 by2)
    as (I0 & IA & IB & _); try assumption.
  do 3 eexists.
  split; [ exact (intersection_corners _ _ _ _ _ _ _ _ _ _ HA HB) | ].
  split; [ exact (own_area_corners _ _ _ _ _ HA) | ].
  split; [ exact (own_area_corners _ _ _ _ _ HB) | ].
  now repeat split.
Qed.

Lemma intersection_of_overlapping_witness :
  exists A B v aB,
    create_corners (present 0 (1#2) (1#2) (1#4) (1#4) 1) = Ok A /\
    create_corners (present 1 (5#8) (1#2) (1#2) (1#8) 1) = Ok B /\
    intersection A B = Ok (ANum v) /\
    rectangular_area (x1 B) (x2 B) (y1 B) (y2 B) = Ok (ANum aB) /\
    0 <= v /\ v <= aB.
Proof.
  do 2 eexists.
  destruct (intersection_of_overlapping _ _ _ _ _ _ _ _ _ _
              (has_corners_present 0 (1#2) (1#2) (1#4) (1#4) 1 _ eq_refl)
              (has_corners_present 1 (5#8) (1#2) (1#2) (1#8) 1 _ eq_refl))
    as (v & aA & aB & I & _ & EB & V0 & _ & VB);
    try (vm_compute; discriminate); try reflexivity.
  exists v, aB. split; [ reflexivity | split; [ reflexivity | ] ].
  now repeat split.
Defined.

(** X7.  For two boxes with a detection whose corners are in order, a
    number that [niou] returns lies between 0 and 1, and it is positive
    only if the boxes overlap. *)
Theorem niou_unit_interval (A B : BBox)
    (ax1 ay1 ax2 ay2 bx1 by1 bx2 by2 : Q) :
  has_corners A ax1 ay1 ax2 ay2 -> has_corners B bx1 by1 bx2 by2 ->
  ax1 <= ax2 -> ay1 <= ay2 -> bx1 <= bx2 -> by1 <= by2 ->
  forall v, niou A B = Ok (ANum v) ->
    0 <= v /\ v <= 1 /\ (0 < v -> is_overlapping A B = Ok true).
Proof.
  intros HA HB OAx OAy OBx OBy v.
  rewrite (niou_corners _ _ _ _ _ _ _ _ _ _ HA HB),
    (is_overlapping_corners _ _ _ _ _ _ _ _ _ _ HA HB).
  match goal with |- context [Ok (?o1 && ?o2)] => destruct (o1 && o2) eqn:O end.
  - apply overlap_bool_iff in O. destruct O as (O1 & O2 & O3 & O4).
    destruct (overlap_operands ax1 ay1 ax2 ay2 bx1 by1 bx2 by2)
      as (I0 & IA & IB & PA & PB); try assumption.
    revert I0 IA IB PA PB.
    generalize ((qmin ax2 bx2 - qmax ax1 bx1) * (qmin ay2 by2 - qmax ay1 by1)).
    intros i I0 IA IB PA PB.
    assert (M : 0 <= qmin ((ax2 - ax1) * (ay2 - ay1)) ((bx2 - bx1) * (by2 - by1)) /\
                i <= qmin ((ax2 - ax1) * (ay2 - ay1)) ((bx2 - bx1) * (by2 - by1))).
    { destruct (qmin_cases ((ax2 - ax1) * (ay2 - ay1)) ((bx2 - bx1) * (by2 - by1)))
        as [[_ ->]|[_ ->]]; now split. }
    revert M. generalize (qmin ((ax2 - ax1) * (ay2 - ay1)) ((bx2 - bx1) * (by2 - by1))).
    intros m [M0 IM]. unfold attr_div.
    destruct (Qeq_bool m 0) eqn:Z0; [ discriminate | ].
    apply Qeq_bool_neq in Z0. intros E. injection E as <-.
    assert (Pm : 0 < m) by (destruct (Qlt_le_dec 0 m); [ assumption | exfalso; apply Z0; lra ]).
    destruct (quotient_bounds i m Pm I0 IM) as (V0 & V1 & _).
    split; [ exact V0 | split; [ exact V1 | reflexivity ] ].
  - intros E. injection E as <-.
    split; [ lra | split; [ lra | intros F; lra ] ].
Qed.

Lemma niou_unit_interval_witness :
  exists A B v,
    create_corners (present 0 (1#2) (1#2) (1#4) (1#4) 1) = Ok A /\
    create_corners (present 1 (5#8) (1#2) (1#2) (1#8) 1) = Ok B /\
    niou A B = Ok (ANum v) /\ 0 <= v /\ v <= 1.
Proof.
  pose proof (create_present 0 (1#2) (1#2) (1#4) (1#4) 1) as CA.
  pose proof (create_present 1 (5#8) (1#2) (1#2) (1#8) 1) as CB.
  match type of CA with _ = Ok ?a => set (A := a) in * end.
  match type of CB with _ = Ok ?b => set (B := b) in * end.
  assert (N : exists v, niou A B = Ok (ANum v))
    by (eexists; vm_compute; reflexivity).
  destruct N as (v & N).
  exists A, B, v. split; [ exact CA | split; [ exact CB | split; [ exact N | ] ] ].
  destruct (niou_unit_interval A B _ _ _ _ _ _ _ _
              (has_corners_present _ _ _ _ _ _ _ CA)
              (has_corners_present _ _ _ _ _ _ _ CB)) with (v := v)
    as (V0 & V1 & _); try (vm_compute; discriminate); try exact N.
  split; [ exact V0 | exact V1 ].
Defined.





(** X10.  For two boxes with a detection whose corners are in order,
    [niou] raises [ZeroDivisionError] exactly when the boxes overlap and
    [rectangular_area] returns zero for one of them. *)
Theorem niou_zero_division (A B : BBox) (ax1 ay1 ax2 ay2 bx1 by1 bx2 by2 : Q) :
  has_corners A ax1 ay1 ax2 ay2 -> has_corners B bx1 by1 bx2 by2 ->
  ax1 <= ax2 -> ay1 <= ay2 -> bx1 <= bx2 -> by1 <= by2 ->
  exists aA aB,
    rectangular_area (x1 A) (x2 A) (y1 A) (y2 A) = Ok (ANum aA) /\
    rectangular_area (x1 B) (x2 B) (y1 B) (y2 B) = Ok (ANum aB) /\
    (niou A B = Raise ZeroDivisionError <->
     is_overlapping A B = Ok true /\ (aA == 0 \/ aB == 0)).
Proof.
  intros HA HB OAx OAy OBx OBy. do 2 eexists.
  split; [ exact (own_area_corners _ _ _ _ _ HA) | ].
  split; [ exact (own_area_corners _ _ _ _ _ HB) | ].
  rewrite (niou_corners _ _ _ _ _ _ _ _ _ _ HA HB),
    (is_overlapping_corners _ _ _ _ _ _ _ _ _ _ HA HB).
  assert (PA : 0 <= (ax2 - ax1) * (ay2 - ay1)) by nra.
  assert (PB : 0 <= (bx2 - bx1) * (by2 - by1)) by nra.
  revert PA PB. generalize ((ax2 - ax1) * (ay2 - ay1)), ((bx2 - bx1) * (by2 - by1)).
  intros aA aB PA PB.
  assert (MZ : qmin aA aB == 0 <-> aA == 0 \/ aB == 0).
  { destruct (qmin_cases aA aB) as [[L ->]|[L ->]]; split.
    - intros Z0. now right.
    - intros [Z0|Z0]; lra.
    - intros Z0. now left.
    - intros [Z0|Z0]; lra. }
  match goal with |- context [Ok (?o1 && ?o2)] => destruct (o1 && o2) end.
  - unfold attr_div. destruct (Qeq_bool (qmin aA aB) 0) eqn:Z0.
    + apply Qeq_bool_iff in Z0. apply MZ in Z0.
      split; [ intros _; now split | reflexivity ].
    + apply Qeq_bool_neq in Z0.
      split; [ discriminate | intros [_ Z1]; exfalso; apply Z0; now apply MZ ].
  - split; [ discriminate | intros [F _]; discriminate ].
Qed.

Lemma niou_zero_division_witness :
  exists A B,
    create_corners (present 0 (1#2) (1#2) 0 (1#4) 1) = Ok A /\
    create_corners (present 0 (1#2) (1#2) (1#2) (1#2) 1) = Ok B /\
    niou A B = Raise ZeroDivisionError.
Proof.
  pose proof (create_present 0 (1#2) (1#2) 0 (1#4) 1) as CA.
  pose proof (create_present 0 (1#2) (1#2) (1#2) (1#2) 1) as CB.
  match type of CA with _ = Ok ?a => set (A := a) in * end.
  match type of CB with _ = Ok ?b => set (B := b) in * end.
  exists A, B. split; [ exact CA | split; [ exact CB | ] ].
  destruct (niou_zero_division A B _ _ _ _ _ _ _ _
              (has_corners_present _ _ _ _ _ _ _ CA)
              (has_corners_present _ _ _ _ _ _ _ CB))
    as (aA & aB & EA & _ & I); try (vm_compute; discriminate).
  apply I. split; [ reflexivity | left ].
  vm_compute in EA. injection EA as <-. reflexivity.
Defined.

End Box.
